(** * Demo Jam API: the in-memory CRUD handlers and their properties

    A shallow embedding of the item handlers of the Demo Jam API
    ([getItems], [getItem], [createItem], [updateItem], [deleteItem]) over
    the global slice [items], followed by the properties the handlers
    satisfy.  The mutex [itemsLock] serialises the handlers, and the only
    work done outside it (decoding the request body) touches request-local
    data, so a handler is a function from the collection before the call
    to a response and the collection after it. *)

From Stdlib Require Import ZArith Ascii String.
From stdpp Require Import base option strings list gmap.

Local Open Scope Z_scope.
Local Open Scope string_scope.

(** ** Data model *)

(** [type Item struct { ID, Name, Description string }] *)
Record Item : Type := mkItem {
  ID : string;
  Name : string;
  Description : string;
}.

#[global] Instance Item_eq_dec : EqDecision Item.
Proof. solve_decision. Defined.

(** The zero value of the struct, what [var item Item] declares. *)
Definition zeroItem : Item := mkItem "" "" "".

#[global] Instance Item_inhabited : Inhabited Item := populate zeroItem.

(** ** encoding/json, as far as the handlers use it *)

(** A JSON value, after the scanner accepted it.  Object members are kept
    in the order of the text, duplicated keys included; strings are held
    unquoted; a number keeps its literal. *)
#[local] Unset Elimination Schemes.
Inductive json : Type :=
  | JNull
  | JBool (b : bool)
  | JNumber (lit : string)
  | JString (s : string)
  | JArray (elems : list json)
  | JObject (members : list (string * json)).
#[local] Set Elimination Schemes.

(** What [json.NewDecoder(r.Body)] finds when asked for the next value:
    nothing well formed (end of input, a syntax error, a failing reader),
    or a value. *)
Inductive Body : Type :=
  | NoValue
  | NextValue (v : json).

(** The errors [Decode] reports. *)
Inductive error : Type :=
  | SyntaxError
  | UnmarshalTypeError (value : string) (field : string).

(** The three fields of [Item], with their [json:"..."] names. *)
Inductive Field : Type := FID | FName | FDescription.

Definition fieldName (f : Field) : string :=
  match f with
  | FID => "id"
  | FName => "name"
  | FDescription => "description"
  end.

Definition setField (f : Field) (s : string) (item : Item) : Item :=
  match f with
  | FID => mkItem s (Name item) (Description item)
  | FName => mkItem (ID item) s (Description item)
  | FDescription => mkItem (ID item) (Name item) s
  end.

(** [foldName]: the key under which field names are compared when no
    field has exactly the key's name.  ASCII letters go to upper case.
    Of the runes outside ASCII only U+017F (long s, bytes C5 BF) and
    U+212A (Kelvin sign, bytes E2 84 AA) fold to an ASCII letter; every
    other one folds to a rune outside ASCII, which no field name
    contains, so its bytes are left as they are. *)
Definition upperByte (c : ascii) : ascii :=
  let n := nat_of_ascii c in
  if ((97 <=? n) && (n <=? 122))%nat then ascii_of_nat (n - 32) else c.

Fixpoint foldName (key : string) : string :=
  match key with
  | EmptyString => EmptyString
  | String c rest =>
      match nat_of_ascii c, rest with
      | 197%nat, String c1 rest1 =>
          if (nat_of_ascii c1 =? 191)%nat
          then String "S" (foldName rest1)
          else String c (foldName rest)
      | 226%nat, String c1 (String c2 rest2) =>
          if ((nat_of_ascii c1 =? 132) && (nat_of_ascii c2 =? 170))%nat
          then String "K" (foldName rest2)
          else String c (foldName rest)
      | _, _ => String (upperByte c) (foldName rest)
      end
  end.

Definition fields : list Field := [FID; FName; FDescription].

(** The field an object key names: an exact match first, then a match
    of the folded names. *)
Definition lookupField (key : string) : option Field :=
  match list_find (λ f, fieldName f = key) fields with
  | Some (_, f) => Some f
  | None =>
      snd <$> list_find (λ f, foldName (fieldName f) = foldName key) fields
  end.

(** [d.saveError]: the first error is the one reported. *)
Definition saveError (saved : option error) (err : error) : option error :=
  match saved with
  | Some e => Some e
  | None => Some err
  end.

Definition valueKind (v : json) : string :=
  match v with
  | JNull => "null"
  | JBool _ => "bool"
  | JNumber _ => "number"
  | JString _ => "string"
  | JArray _ => "array"
  | JObject _ => "object"
  end.

(** An object decoded into the struct, member by member: a key that names
    no field is skipped with its value; a string is stored; null leaves
    the field alone; any other value is a type error, saved while the
    decoding goes on. *)
Fixpoint objectInto (members : list (string * json)) (item : Item)
    (saved : option error) : Item * option error :=
  match members with
  | [] => (item, saved)
  | (key, v) :: rest =>
      match lookupField key with
      | None => objectInto rest item saved
      | Some f =>
          match v with
          | JString s => objectInto rest (setField f s item) saved
          | JNull => objectInto rest item saved
          | _ =>
              objectInto rest item
                (saveError saved (UnmarshalTypeError (valueKind v) (fieldName f)))
          end
      end
  end.

(** [decoder.Decode(&item)]: the struct after the call and the error.
    Null decoded into a struct has no effect and is no error; a value
    that is neither null nor an object is a type error. *)
Definition Decode (b : Body) (item : Item) : Item * option error :=
  match b with
  | NoValue => (item, Some SyntaxError)
  | NextValue JNull => (item, None)
  | NextValue (JObject members) => objectInto members item None
  | NextValue v => (item, Some (UnmarshalTypeError (valueKind v) ""))
  end.

(** ** strconv.Itoa *)

Definition digit (d : Z) : ascii := ascii_of_nat (Z.to_nat (48 + d)).

(** The digits of [u], most significant first, put before [acc].  An
    int64 has at most 19 digits, which bounds the loop. *)
Fixpoint formatBits (fuel : nat) (u : Z) (acc : string) : string :=
  match fuel with
  | O => acc
  | S fuel' =>
      if (u <? 10)%Z then String (digit u) acc
      else formatBits fuel' (u / 10) (String (digit (u mod 10)) acc)
  end.

Definition Itoa (i : Z) : string :=
  if (i <? 0)%Z then String "-" (formatBits 20 (- i) "") else formatBits 20 i "".

(** ** Responses *)

(** What a handler hands to [json.Marshal]: the slice, one item, or a
    [map[string]string].  Marshalling cannot fail on any of the three, so
    the response holds the value and the 500 branch of [respondWithJSON]
    is never taken. *)
Inductive Payload : Type :=
  | PItems (l : list Item)
  | PItem (item : Item)
  | PMap (m : gmap string string).

(** What the handler leaves in the [http.ResponseWriter]. *)
Record Response : Type := mkResponse {
  resp_header : gmap string string;
  resp_code : Z;
  resp_body : Payload;
}.

Definition StatusOK : Z := 200.
Definition StatusCreated : Z := 201.
Definition StatusBadRequest : Z := 400.
Definition StatusNotFound : Z := 404.

Definition respondWithJSON (code : Z) (payload : Payload) : Response :=
  mkResponse {[ "Content-Type" := "application/json" ]} code payload.

Definition respondWithError (code : Z) (message : string) : Response :=
  respondWithJSON code (PMap {[ "error" := message ]}).

(** ** Requests *)

(** A request as the handlers see it: the variables the router took out of
    the path ([mux.Vars]) and the body. *)
Record Request : Type := mkRequest {
  req_vars : gmap string string;
  req_body : Body;
}.

(** [params["id"]]: a missing key reads as the empty string. *)
Definition param (r : Request) (key : string) : string :=
  default "" (req_vars r !! key).

(** ** Slices *)

(** [s[index].field = v]: panics ([None]) out of range. *)
Definition assignAt (index : nat) (f : Item → Item) (s : list Item)
    : option (list Item) :=
  if decide (index < length s)%nat then Some (alter f index s) else None.

(** [s[:high]] and [s[low:]].  The bound is the length: spare capacity is
    not part of the model, and no handler slices beyond the length. *)
Definition sliceTo (s : list Item) (high : nat) : option (list Item) :=
  if decide (high ≤ length s)%nat then Some (take high s) else None.

Definition sliceFrom (s : list Item) (low : nat) : option (list Item) :=
  if decide (low ≤ length s)%nat then Some (drop low s) else None.

(** [for index, item := range items { if item.ID == id { ...; return } }]:
    the index and the item at which the body runs, if it runs. *)
Fixpoint rangeMatch (id : string) (index : nat) (rest : list Item)
    : option (nat * Item) :=
  match rest with
  | [] => None
  | item :: rest' =>
      if bool_decide (ID item = id) then Some (index, item)
      else rangeMatch id (S index) rest'
  end.

(** ** Handlers *)

(** A handler maps the collection to the response and the collection
    after the call; [None] is a run-time panic. *)
Definition Handler : Type := list Item → option (Response * list Item).

(** GET /items *)
Definition getItems (r : Request) : Handler := λ items,
  Some (respondWithJSON StatusOK (PItems items), items).

(** GET /items/{id} *)
Definition getItem (r : Request) : Handler := λ items,
  let id := param r "id" in
  match rangeMatch id 0 items with
  | Some (_, item) => Some (respondWithJSON StatusOK (PItem item), items)
  | None => Some (respondWithError StatusNotFound "Item not found", items)
  end.

(** POST /items; [n] is what [rand.Intn(1000000)] returns. *)
Definition createItem (n : Z) (r : Request) : Handler := λ items,
  let '(item, err) := Decode (req_body r) zeroItem in
  match err with
  | Some _ =>
      Some (respondWithError StatusBadRequest "Invalid request payload", items)
  | None =>
      let item := mkItem (Itoa n) (Name item) (Description item) in
      let items := (items ++ [item])%list in
      Some (respondWithJSON StatusCreated (PItem item), items)
  end.

(** PUT /items/{id} *)
Definition updateItem (r : Request) : Handler := λ items,
  let id := param r "id" in
  let '(updatedItem, err) := Decode (req_body r) zeroItem in
  match err with
  | Some _ =>
      Some (respondWithError StatusBadRequest "Invalid request payload", items)
  | None =>
      match rangeMatch id 0 items with
      | Some (index, _) =>
          items ← assignAt index
            (λ it, mkItem (ID it) (Name updatedItem) (Description it)) items;
          items ← assignAt index
            (λ it, mkItem (ID it) (Name it) (Description updatedItem)) items;
          it ← items !! index;
          Some (respondWithJSON StatusOK (PItem it), items)
      | None => Some (respondWithError StatusNotFound "Item not found", items)
      end
  end.

(** DELETE /items/{id} *)
Definition deleteItem (r : Request) : Handler := λ items,
  let id := param r "id" in
  match rangeMatch id 0 items with
  | Some (index, _) =>
      front ← sliceTo items index;
      back ← sliceFrom items (index + 1);
      let items := (front ++ back)%list in
      Some (respondWithJSON StatusOK
              (PMap {[ "result" := "success"; "id_deleted" := id ]}), items)
  | None => Some (respondWithError StatusNotFound "Item not found", items)
  end.

(** ** The seeded collections *)

(** The mock data [main] appends before serving. *)
Definition main_items : list Item := [
  mkItem "1" "Default Item 1" "This is the first item";
  mkItem "2" "Default Item 2" "This is the second item";
  mkItem "3" "Default Item 3" "This is the third item";
  mkItem "4" "Default Item 4" "This is the fourth item";
  mkItem "5" "Default Item 5" "This is the fifth item"
].

(** [resetGlobalItems] of the tests. *)
Definition resetGlobalItems : list Item := [
  mkItem "1" "Mock Item 1" "First mock item";
  mkItem "2" "Mock Item 2" "Second mock item"
].

(** ** Runs of the server *)

Inductive Op : Type :=
  | OpList (r : Request)
  | OpGet (r : Request)
  | OpCreate (n : Z) (r : Request)
  | OpUpdate (r : Request)
  | OpDelete (r : Request).

Definition handle (op : Op) : Handler :=
  match op with
  | OpList r => getItems r
  | OpGet r => getItem r
  | OpCreate n r => createItem n r
  | OpUpdate r => updateItem r
  | OpDelete r => deleteItem r
  end.

(** [rand.Intn(1000000)] returns a number of the half-open interval
    [0, 1000000). *)
Definition Intn_range (n : Z) : Prop := 0 ≤ n < 1000000.

Definition op_ok (op : Op) : Prop :=
  match op with
  | OpCreate n _ => Intn_range n
  | _ => True
  end.

(** The collections a run of the server started by [main] can hold. *)
Inductive reachable : list Item → Prop :=
  | reachable_main : reachable main_items
  | reachable_step items op resp items' :
      reachable items →
      op_ok op →
      handle op items = Some (resp, items') →
      reachable items'.

(** ** Predicates of the statements *)

(** No two items of the collection have the same id. *)
Definition unique_ids (items : list Item) : Prop := NoDup (ID <$> items).

(** [id] is the id of no item of the collection. *)
Definition fresh_id (id : string) (items : list Item) : Prop :=
  ∀ it, it ∈ items → ID it ≠ id.

(** Some item of the collection has the id [id]. *)
Definition has_id (id : string) (items : list Item) : Prop :=
  ∃ it, it ∈ items ∧ ID it = id.

(** The item an update leaves in the place of [old]: the id of [old],
    the name and the description of the patch. *)
Definition patched (old patch : Item) : Item :=
  mkItem (ID old) (Name patch) (Description patch).

(** The handler answers with status [code] and body [payload], and leaves
    the collection [items']. *)
Definition responds (outcome : option (Response * list Item)) (code : Z)
    (payload : Payload) (items' : list Item) : Prop :=
  ∃ resp, outcome = Some (resp, items') ∧
    resp_code resp = code ∧ resp_body resp = payload.

(** The body of the request does not decode into an [Item]. *)
Definition undecodable (r : Request) : Prop :=
  (Decode (req_body r) zeroItem).2 ≠ None.

(** A create whose body decodes and whose drawn id is already the id of
    an item of the collection. *)
Definition collides (op : Op) (items : list Item) : Prop :=
  match op with
  | OpCreate n r =>
      (Decode (req_body r) zeroItem).2 = None ∧ Itoa n ∈ ID <$> items
  | _ => False
  end.

(** The collections of the runs in which no create drew an id that was
    in use. *)
Inductive collision_free : list Item → Prop :=
  | collision_free_main : collision_free main_items
  | collision_free_step items op resp items' :
      collision_free items →
      op_ok op →
      ¬ collides op items →
      handle op items = Some (resp, items') →
      collision_free items'.

(** Decimal strings. *)
Definition is_digit (c : ascii) : bool :=
  ((48 <=? nat_of_ascii c) && (nat_of_ascii c <=? 57))%nat.

Fixpoint all_digits (s : string) : bool :=
  match s with
  | EmptyString => true
  | String c rest => is_digit c && all_digits rest
  end.

Definition first_char (s : string) : option ascii :=
  match s with
  | EmptyString => None
  | String c _ => Some c
  end.

(** A zero in front only when it is the whole string. *)
Definition no_leading_zero (s : string) : bool :=
  match s with
  | String c (String _ _) => negb (Ascii.eqb c "0")
  | _ => true
  end.

(** The number a string of digits denotes, read after the digits that
    gave [acc]. *)
Fixpoint decimal_value (s : string) (acc : Z) : option Z :=
  match s with
  | EmptyString => Some acc
  | String c rest =>
      if is_digit c
      then decimal_value rest (10 * acc + (Z.of_nat (nat_of_ascii c) - 48))
      else None
  end.

(** ** Requests of the test suite *)

Definition request (id : string) (b : Body) : Request :=
  mkRequest {[ "id" := id ]} b.

(** [{"name":"New Item", "description":"A new test item"}] *)
Definition newItemBody : Body :=
  NextValue (JObject [("name", JString "New Item");
                      ("description", JString "A new test item")]).

(** [{"name":"Updated Name", "description":"Updated Description"}] *)
Definition updatedBody : Body :=
  NextValue (JObject [("name", JString "Updated Name");
                      ("description", JString "Updated Description")]).

(** [{"name":"Bad JSON", "description":}], which the scanner rejects. *)
Definition badBody : Body := NoValue.

(** ** Predicates of the further statements *)

(** The statuses a call can be answered with. *)
Definition statuses (op : Op) : list Z :=
  match op with
  | OpList _ => [200]
  | OpGet _ => [200; 404]
  | OpCreate _ _ => [201; 400]
  | OpUpdate _ => [200; 400; 404]
  | OpDelete _ => [200; 404]
  end.

(** By how much a call answered with [code] changes the length of the
    collection. *)
Definition length_change (op : Op) (code : Z) : Z :=
  match op with
  | OpCreate _ _ => if decide (code = 201) then 1 else 0
  | OpDelete _ => if decide (code = 200) then -1 else 0
  | _ => 0
  end.

(** A member the decoder passes without an error: its key names no field
    of [Item], or its value is a string or null. *)
Definition storable (m : string * json) : bool :=
  match lookupField m.1 with
  | None => true
  | Some _ =>
      match m.2 with
      | JString _ | JNull => true
      | _ => false
      end
  end.

(** A body that is null, or an object with storable members only. *)
Definition decodable_body (b : Body) : bool :=
  match b with
  | NextValue JNull => true
  | NextValue (JObject members) => forallb storable members
  | _ => false
  end.

(** A string of one to six digits with no zero in front, unless it is
    ["0"]. *)
Definition decimal_id (s : string) : bool :=
  all_digits s && no_leading_zero s &&
  (1 <=? String.length s)%nat && (String.length s <=? 6)%nat.

(** [{"id":"1", "name":"New Item", "description":"A new test item"}] *)
Definition newItemBodyWithId : Body :=
  NextValue (JObject [("id", JString "1");
                      ("name", JString "New Item");
                      ("description", JString "A new test item")]).

(** The id a call is about: the id of the path for update and delete,
    the id drawn for create. *)
Definition target (op : Op) : option string :=
  match op with
  | OpList _ | OpGet _ => None
  | OpCreate n _ => Some (Itoa n)
  | OpUpdate r | OpDelete r => Some (param r "id")
  end.

(** ** The range loop *)

Section RangeLoop.
Context (id : string).

(** The loop body runs at the first item whose id is [id]: at position
    [i] of the slice, reported with the index the loop counts. *)
Lemma rangeMatch_Some start (l : list Item) index item :
  rangeMatch id start l = Some (index, item) ↔
  ∃ i : nat, index = (start + i)%nat ∧ l !! i = Some item ∧ ID item = id ∧
    ∀ (j : nat) it, (j < i)%nat → l !! j = Some it → ID it ≠ id.
Proof.
  revert start. induction l as [|x l IH]; intros start; simpl.
  - split; [done | by intros (i & _ & ? & _)].
  - case_bool_decide as Hx.
    + split.
      * intros [= <- <-]. exists 0%nat. repeat split; [lia | done | lia].
      * intros (i & -> & Hi & Hid & Hbefore). destruct i as [|i].
        { simpl in Hi. injection Hi as ->. do 2 f_equal. lia. }
        exfalso. by apply (Hbefore 0%nat x); [lia | |].
    + rewrite IH. split.
      * intros (i & -> & Hi & Hid & Hbefore). exists (S i).
        repeat split; [lia | done | done |].
        intros [|j] it Hj Hit; simpl in Hit; [by injection Hit as <- |].
        apply (Hbefore j); [lia | done].
      * intros (i & -> & Hi & Hid & Hbefore). destruct i as [|i].
        { simpl in Hi. injection Hi as ->. done. }
        exists i. repeat split; [lia | done | done |].
        intros j it Hj Hit. apply (Hbefore (S j)); [lia | done].
Qed.

(** The loop runs to its end exactly when no item has the id. *)
Lemma rangeMatch_None start (l : list Item) :
  rangeMatch id start l = None ↔ fresh_id id l.
Proof.
  unfold fresh_id. revert start. induction l as [|x l IH]; intros start; simpl.
  - split; [|done]. intros _ it Hit. by apply elem_of_nil in Hit.
  - case_bool_decide as Hx.
    + split; [done|]. intros Hfresh. exfalso.
      apply (Hfresh x); [apply list_elem_of_here | done].
    + rewrite IH. split.
      * intros Hfresh it [-> | Hit]%elem_of_cons; [done | by apply Hfresh].
      * intros Hfresh it Hit. apply Hfresh. by apply list_elem_of_further.
Qed.

(** If some item has the id, the loop body runs, inside the slice. *)
Lemma rangeMatch_has_id start (l : list Item) :
  has_id id l → ∃ index item, rangeMatch id start l = Some (index, item).
Proof.
  intros (it & Hit & Hid).
  destruct (rangeMatch id start l) as [[index item]|] eqn:Hscan; [eauto|].
  apply rangeMatch_None in Hscan. by destruct (Hscan it Hit).
Qed.

(** The same, on a slice split at the first item with the id. *)
Lemma rangeMatch_app start (pre post : list Item) x :
  fresh_id id pre → ID x = id →
  rangeMatch id start (pre ++ x :: post)%list
  = Some ((start + length pre)%nat, x).
Proof.
  intros Hpre Hx. apply rangeMatch_Some. exists (length pre).
  repeat split; [by apply list_lookup_middle | done |].
  intros j it Hj Hit. rewrite lookup_app_l in Hit; [|done].
  apply Hpre. by eapply list_elem_of_lookup_2.
Qed.
End RangeLoop.

(** ** What each handler does, by the outcome of its loop *)

Lemma assignAt_Some index f (s : list Item) old :
  s !! index = Some old → assignAt index f s = Some (<[index := f old]> s).
Proof.
  intros Hold. unfold assignAt.
  rewrite decide_True; [|by eapply lookup_lt_Some].
  f_equal. revert index Hold.
  induction s as [|x s IH]; intros [|index] Hold; simplify_eq/=; [done|].
  f_equal. by apply IH.
Qed.

Lemma getItem_found r items index item :
  rangeMatch (param r "id") 0 items = Some (index, item) →
  getItem r items = Some (respondWithJSON StatusOK (PItem item), items).
Proof. unfold getItem. by intros ->. Qed.

Lemma getItem_missing r items :
  rangeMatch (param r "id") 0 items = None →
  getItem r items
  = Some (respondWithError StatusNotFound "Item not found", items).
Proof. unfold getItem. by intros ->. Qed.

Lemma updateItem_found r items patch index old :
  Decode (req_body r) zeroItem = (patch, None) →
  rangeMatch (param r "id") 0 items = Some (index, old) →
  updateItem r items
  = Some (respondWithJSON StatusOK (PItem (patched old patch)),
          <[index := patched old patch]> items).
Proof.
  intros Hdec Hscan. unfold updateItem. rewrite Hdec, Hscan.
  apply rangeMatch_Some in Hscan as (i & -> & Hi & _). simpl in *.
  rewrite (assignAt_Some _ _ _ old Hi). simpl.
  assert (i < length items)%nat as Hlt by by eapply lookup_lt_Some.
  erewrite assignAt_Some; [|by apply list_lookup_insert_eq]. simpl.
  rewrite list_insert_insert_eq.
  rewrite list_lookup_insert_eq; [|done]. done.
Qed.

Lemma updateItem_missing r items patch :
  Decode (req_body r) zeroItem = (patch, None) →
  rangeMatch (param r "id") 0 items = None →
  updateItem r items
  = Some (respondWithError StatusNotFound "Item not found", items).
Proof. intros Hdec Hscan. unfold updateItem. by rewrite Hdec, Hscan. Qed.

Lemma updateItem_undecodable r items item e :
  Decode (req_body r) zeroItem = (item, Some e) →
  updateItem r items
  = Some (respondWithError StatusBadRequest "Invalid request payload", items).
Proof. intros Hdec. unfold updateItem. by rewrite Hdec. Qed.

Lemma deleteItem_found r items index item :
  rangeMatch (param r "id") 0 items = Some (index, item) →
  deleteItem r items
  = Some (respondWithJSON StatusOK
            (PMap {[ "result" := "success"; "id_deleted" := param r "id" ]}),
          delete index items).
Proof.
  intros Hscan. unfold deleteItem. rewrite Hscan.
  apply rangeMatch_Some in Hscan as (i & -> & Hi & _). simpl.
  assert (i < length items)%nat as Hlt by by eapply lookup_lt_Some.
  unfold sliceTo, sliceFrom.
  rewrite !decide_True by lia. simpl.
  replace (i + 1)%nat with (S i) by lia.
  by rewrite delete_take_drop.
Qed.

Lemma deleteItem_missing r items :
  rangeMatch (param r "id") 0 items = None →
  deleteItem r items
  = Some (respondWithError StatusNotFound "Item not found", items).
Proof. unfold deleteItem. by intros ->. Qed.

Lemma createItem_decoded n r items patch :
  Decode (req_body r) zeroItem = (patch, None) →
  createItem n r items
  = Some (respondWithJSON StatusCreated
            (PItem (mkItem (Itoa n) (Name patch) (Description patch))),
          (items ++ [mkItem (Itoa n) (Name patch) (Description patch)])%list).
Proof. intros Hdec. unfold createItem. by rewrite Hdec. Qed.

Lemma createItem_undecodable n r items item e :
  Decode (req_body r) zeroItem = (item, Some e) →
  createItem n r items
  = Some (respondWithError StatusBadRequest "Invalid request payload", items).
Proof. intros Hdec. unfold createItem. by rewrite Hdec. Qed.

(** No handler panics: the indices it uses come from its own loop. *)
Lemma handle_total op items : ∃ resp items', handle op items = Some (resp, items').
Proof.
  destruct op as [r|r|n r|r|r]; simpl.
  - unfold getItems. eauto.
  - destruct (rangeMatch (param r "id") 0 items) as [[index item]|] eqn:Hscan.
    + erewrite getItem_found; eauto.
    + rewrite getItem_missing; eauto.
  - destruct (Decode (req_body r) zeroItem) as [patch [e|]] eqn:Hdec.
    + erewrite createItem_undecodable; eauto.
    + erewrite createItem_decoded; eauto.
  - destruct (Decode (req_body r) zeroItem) as [patch [e|]] eqn:Hdec.
    { erewrite updateItem_undecodable; eauto. }
    destruct (rangeMatch (param r "id") 0 items) as [[index item]|] eqn:Hscan.
    + erewrite updateItem_found; eauto.
    + erewrite updateItem_missing; eauto.
  - destruct (rangeMatch (param r "id") 0 items) as [[index item]|] eqn:Hscan.
    + erewrite deleteItem_found; eauto.
    + rewrite deleteItem_missing; eauto.
Qed.

(** ** Statements about the handlers *)

Lemma responds_intro code payload items' :
  responds (Some (respondWithJSON code payload, items')) code payload items'.
Proof. by eexists. Qed.

(** C3. A create or update request whose body does not decode is answered
    400 with the body [{"error": "Invalid request payload"}], and the
    collection after the call is the collection before it. *)
Theorem undecodable_body_rejected n r items :
  undecodable r →
  responds (createItem n r items) 400
    (PMap {[ "error" := "Invalid request payload" ]}) items ∧
  responds (updateItem r items) 400
    (PMap {[ "error" := "Invalid request payload" ]}) items.
Proof.
  unfold undecodable. intros Hdec.
  destruct (Decode (req_body r) zeroItem) as [item [e|]] eqn:Heq; [|done].
  split.
  - erewrite createItem_undecodable; [apply responds_intro | done].
  - erewrite updateItem_undecodable; [apply responds_intro | done].
Qed.

(** C4. Update of an id the collection holds, with a decodable patch:
    the first item with the id keeps its id and its position and takes
    the name and the description of the patch, whatever id the patch
    carries; it is returned with 200; the length is unchanged and every
    other position holds the item it held. *)
Theorem updateItem_existing r items patch :
  Decode (req_body r) zeroItem = (patch, None) →
  has_id (param r "id") items →
  ∃ (index : nat) (old : Item) (items' : list Item),
    items !! index = Some old ∧ ID old = param r "id" ∧
    (∀ (j : nat) it, (j < index)%nat → items !! j = Some it →
       ID it ≠ param r "id") ∧
    responds (updateItem r items) 200
      (PItem (mkItem (ID old) (Name patch) (Description patch))) items' ∧
    length items' = length items ∧
    items' !! index = Some (mkItem (ID old) (Name patch) (Description patch)) ∧
    ∀ j : nat, j ≠ index → items' !! j = items !! j.
Proof.
  intros Hdec Hhas.
  destruct (rangeMatch_has_id _ 0 _ Hhas) as (index & old & Hscan).
  pose proof Hscan as (i & -> & Hi & Hid & Hfirst)%rangeMatch_Some.
  simpl in *. exists i, old, (<[i := patched old patch]> items).
  repeat split; [done | done | done | | | |].
  - erewrite updateItem_found; [apply responds_intro | done | done].
  - apply length_insert.
  - apply list_lookup_insert_eq. by eapply lookup_lt_Some.
  - intros j Hj. by apply list_lookup_insert_ne.
Qed.

(** C5. Delete of an id the collection holds: the first item with the id
    is taken out, the items before it and after it keep their order, the
    length goes down by one, and the answer is 200 with
    [{"result": "success", "id_deleted": id}]. *)
Theorem deleteItem_existing r items :
  has_id (param r "id") items →
  ∃ (index : nat) (old : Item) (items' : list Item),
    items !! index = Some old ∧ ID old = param r "id" ∧
    (∀ (j : nat) it, (j < index)%nat → items !! j = Some it →
       ID it ≠ param r "id") ∧
    responds (deleteItem r items) 200
      (PMap {[ "result" := "success"; "id_deleted" := param r "id" ]}) items' ∧
    length items = S (length items') ∧
    items' = (take index items ++ drop (S index) items)%list ∧
    (∀ j : nat, (j < index)%nat → items' !! j = items !! j) ∧
    (∀ j : nat, (index ≤ j)%nat → items' !! j = items !! S j).
Proof.
  intros Hhas.
  destruct (rangeMatch_has_id _ 0 _ Hhas) as (index & old & Hscan).
  pose proof Hscan as (i & -> & Hi & Hid & Hfirst)%rangeMatch_Some.
  simpl in *. exists i, old, (delete i items).
  assert (i < length items)%nat as Hlt by by eapply lookup_lt_Some.
  repeat split; [done | done | done | | | | |].
  - erewrite deleteItem_found; [apply responds_intro | done].
  - rewrite length_delete; [lia | by eauto].
  - apply delete_take_drop.
  - intros j Hj. by apply list_lookup_delete_lt.
  - intros j Hj. by apply list_lookup_delete_ge.
Qed.

(** C6. On an id that no item of the collection has, get and delete
    answer 404 with [{"error": "Item not found"}], and so does update
    when its body decodes; the collection stays as it was. *)
Theorem missing_id_not_found r items :
  fresh_id (param r "id") items →
  responds (getItem r items) 404 (PMap {[ "error" := "Item not found" ]}) items ∧
  responds (deleteItem r items) 404
    (PMap {[ "error" := "Item not found" ]}) items ∧
  ∀ patch, Decode (req_body r) zeroItem = (patch, None) →
    responds (updateItem r items) 404
      (PMap {[ "error" := "Item not found" ]}) items.
Proof.
  intros Hscan%(rangeMatch_None _ 0). repeat split.
  - rewrite getItem_missing; [apply responds_intro | done].
  - rewrite deleteItem_missing; [apply responds_intro | done].
  - intros patch Hdec.
    erewrite updateItem_missing; [apply responds_intro | done | done].
Qed.

(** C7. Get of an id the collection holds answers 200 with the first
    item, in the order of the collection, that has the id, and leaves the
    collection as it was. *)
Theorem getItem_existing r items :
  has_id (param r "id") items →
  ∃ (index : nat) (item : Item),
    items !! index = Some item ∧ ID item = param r "id" ∧
    (∀ (j : nat) it, (j < index)%nat → items !! j = Some it →
       ID it ≠ param r "id") ∧
    responds (getItem r items) 200 (PItem item) items.
Proof.
  intros Hhas.
  destruct (rangeMatch_has_id _ 0 _ Hhas) as (index & item & Hscan).
  pose proof Hscan as (i & -> & Hi & Hid & Hfirst)%rangeMatch_Some.
  exists i, item. repeat split; [done | done | done |].
  erewrite getItem_found; [apply responds_intro | done].
Qed.

(** C9. When the id occurs more than once, at [x] first and again in
    [post], get returns [x], update rewrites [x] alone and delete takes
    out [x] alone: [post], with every later item of that id, stays. *)
Theorem first_duplicate_wins r (pre post : list Item) x :
  fresh_id (param r "id") pre →
  ID x = param r "id" →
  has_id (param r "id") post →
  responds (getItem r (pre ++ x :: post)%list) 200 (PItem x)
    (pre ++ x :: post)%list ∧
  responds (deleteItem r (pre ++ x :: post)%list) 200
    (PMap {[ "result" := "success"; "id_deleted" := param r "id" ]})
    (pre ++ post)%list ∧
  ∀ patch, Decode (req_body r) zeroItem = (patch, None) →
    responds (updateItem r (pre ++ x :: post)%list) 200
      (PItem (mkItem (ID x) (Name patch) (Description patch)))
      (pre ++ mkItem (ID x) (Name patch) (Description patch) :: post)%list.
Proof.
  intros Hpre Hx _.
  pose proof (rangeMatch_app _ 0 pre post x Hpre Hx) as Hscan. simpl in Hscan.
  repeat split.
  - erewrite getItem_found; [apply responds_intro | done].
  - erewrite deleteItem_found; [|done].
    replace (delete (length pre) (pre ++ x :: post)%list) with (pre ++ post)%list;
      [apply responds_intro|].
    rewrite delete_take_drop, take_app_length.
    by rewrite (cons_middle x), app_assoc, drop_app_length'
      by (rewrite length_app; simpl; lia).
  - intros patch Hdec. erewrite updateItem_found; [|done|done].
    replace (<[length pre := patched x patch]> (pre ++ x :: post)%list)
      with (pre ++ patched x patch :: post)%list; [apply responds_intro|].
    by rewrite insert_app_r_alt, Nat.sub_diag by lia.
Qed.

(** C10. The body [null] decodes: create answers 201 and stores an item
    with empty name and description under the id it assigns, and update
    of an id the collection holds answers 200 and leaves the first item
    with that id with empty name and description. *)
Theorem null_body_decodes n r items :
  req_body r = NextValue JNull →
  responds (createItem n r items) 201 (PItem (mkItem (Itoa n) "" ""))
    (items ++ [mkItem (Itoa n) "" ""])%list ∧
  (has_id (param r "id") items →
   ∃ (index : nat) (old : Item),
     items !! index = Some old ∧ ID old = param r "id" ∧
     (∀ (j : nat) it, (j < index)%nat → items !! j = Some it →
        ID it ≠ param r "id") ∧
     responds (updateItem r items) 200 (PItem (mkItem (ID old) "" ""))
       (<[index := mkItem (ID old) "" ""]> items)).
Proof.
  intros Hbody.
  assert (Decode (req_body r) zeroItem = (zeroItem, None)) as Hdec
    by by rewrite Hbody.
  split.
  - rewrite (createItem_decoded _ _ _ zeroItem Hdec). apply responds_intro.
  - intros Hhas.
    destruct (rangeMatch_has_id _ 0 _ Hhas) as (index & old & Hscan).
    pose proof Hscan as (i & -> & Hi & Hid & Hfirst)%rangeMatch_Some.
    simpl in *. exists i, old. repeat split; [done | done | done |].
    rewrite (updateItem_found _ _ zeroItem i old Hdec Hscan).
    apply responds_intro.
Qed.

(** ** The ids Itoa writes *)

Section Itoa.
Local Open Scope Z_scope.

Lemma digit_spec d :
  0 ≤ d ≤ 9 →
  is_digit (digit d) = true ∧
  Z.of_nat (nat_of_ascii (digit d)) - 48 = d ∧
  (digit d = "0"%char → d = 0).
Proof.
  intros Hd.
  assert (d = 0 ∨ d = 1 ∨ d = 2 ∨ d = 3 ∨ d = 4 ∨ d = 5 ∨ d = 6 ∨
          d = 7 ∨ d = 8 ∨ d = 9) as Hcases by lia.
  repeat (destruct Hcases as [-> | Hcases]); try subst d;
    (split; [reflexivity | split; [reflexivity | try done]]).
Qed.

(** The loop writes between one and [k] digits in front of [acc] when
    [u < 10 ^ k]: they denote [u], and the first is no zero unless
    [u] is. *)
Lemma formatBits_spec fuel :
  ∀ (k : nat) u acc,
    (1 ≤ k ≤ fuel)%nat → 0 ≤ u < 10 ^ Z.of_nat k →
    ∃ m : nat, (1 ≤ m ≤ k)%nat ∧
      String.length (formatBits fuel u acc) = (m + String.length acc)%nat ∧
      all_digits (formatBits fuel u acc) = all_digits acc ∧
      (∀ a, decimal_value (formatBits fuel u acc) a
            = decimal_value acc (a * 10 ^ Z.of_nat m + u)) ∧
      (0 < u → first_char (formatBits fuel u acc) ≠ Some "0"%char).
Proof.
  induction fuel as [|fuel IH]; intros k u acc Hk Hu; [lia|].
  simpl. destruct (u <? 10)%Z eqn:Hsmall.
  - apply Z.ltb_lt in Hsmall.
    destruct (digit_spec u) as (Hdig & Hval & Hzero); [lia|].
    exists 1%nat. simpl. rewrite Hdig, Hval. simpl.
    repeat split; [lia | lia | |].
    + intros a. f_equal. lia.
    + intros Hpos [= Hc]. apply Hzero in Hc. lia.
  - apply Z.ltb_ge in Hsmall.
    destruct k as [|[|k]]; [lia | simpl in Hu; lia |].
    assert (0 ≤ u mod 10 < 10) as Hmod by (apply Z.mod_pos_bound; lia).
    destruct (digit_spec (u mod 10)) as (Hdig & Hval & _); [lia|].
    assert (0 ≤ u / 10 < 10 ^ Z.of_nat (S k)) as Hdiv.
    { split; [apply Z.div_pos; lia|].
      apply Z.div_lt_upper_bound; [lia|].
      replace (Z.of_nat (S (S k))) with (Z.succ (Z.of_nat (S k))) in Hu by lia.
      rewrite Z.pow_succ_r in Hu by lia. lia. }
    destruct (IH (S k) (u / 10) (String (digit (u mod 10)) acc))
      as (m & Hm & Hlen & Hall & Hdv & Hfirst); [lia | done |].
    exists (S m). repeat split; [lia | lia | | | |].
    + rewrite Hlen. simpl. lia.
    + rewrite Hall. simpl. by rewrite Hdig.
    + intros a. rewrite Hdv. simpl. rewrite Hdig, Hval. f_equal.
      replace (Z.of_nat (S m)) with (Z.succ (Z.of_nat m)) by lia.
      rewrite Z.pow_succ_r by lia.
      pose proof (Z.div_mod u 10). lia.
    + intros _. apply Hfirst.
      apply Z.div_str_pos. lia.
Qed.

(** A number below a million is written with at most six digits. *)
Lemma Itoa_spec n :
  Intn_range n →
  decimal_value (Itoa n) 0 = Some n ∧
  (1 ≤ String.length (Itoa n) ≤ 6)%nat ∧
  all_digits (Itoa n) = true ∧
  no_leading_zero (Itoa n) = true.
Proof.
  unfold Intn_range. intros Hn. unfold Itoa.
  rewrite (proj2 (Z.ltb_ge n 0)) by lia.
  destruct (formatBits_spec 20 6 n "") as (m & Hm & Hlen & Hall & Hdv & Hfirst);
    [lia | simpl; lia |].
  repeat split.
  - rewrite Hdv. simpl. f_equal; lia.
  - rewrite Hlen. simpl. lia.
  - rewrite Hlen. simpl. lia.
  - by rewrite Hall.
  - destruct (decide (n = 0)) as [-> | Hpos]; [done|].
    destruct (formatBits 20 n "") as [|c [|c' rest]]; [done | done |].
    simpl. apply negb_true_iff, Ascii.eqb_neq.
    intros ->. apply Hfirst; [lia | done].
Qed.

End Itoa.

(** ** Ids and uniqueness *)

(** What a call does to the collection: nothing, or an append by a
    create, or a rewrite in place by an update, or a removal by a
    delete. *)
Lemma handle_cases op items resp items' :
  handle op items = Some (resp, items') →
  (items' = items ∧ ¬ collides op items) ∨
  (∃ n r patch, op = OpCreate n r ∧
     Decode (req_body r) zeroItem = (patch, None) ∧
     items' = (items ++ [mkItem (Itoa n) (Name patch) (Description patch)])%list) ∨
  (∃ r (index : nat) old patch, op = OpUpdate r ∧ items !! index = Some old ∧
     items' = <[index := patched old patch]> items) ∨
  (∃ r (index : nat), op = OpDelete r ∧ items' = delete index items).
Proof.
  destruct op as [r|r|n r|r|r]; simpl.
  - unfold getItems. intros [= _ <-]. left. split; [done | tauto].
  - destruct (rangeMatch (param r "id") 0 items) as [[index item]|] eqn:Hscan.
    + erewrite getItem_found by done. intros [= _ <-]. left. split; [done | tauto].
    + rewrite getItem_missing by done. intros [= _ <-]. left. split; [done | tauto].
  - destruct (Decode (req_body r) zeroItem) as [patch [e|]] eqn:Hdec.
    + erewrite createItem_undecodable by done. intros [= _ <-]. left.
      split; [done|]. by intros [? _].
    + rewrite (createItem_decoded _ _ _ patch Hdec). intros [= _ <-].
      right; left. by exists n, r, patch.
  - destruct (Decode (req_body r) zeroItem) as [patch [e|]] eqn:Hdec.
    { erewrite updateItem_undecodable by done. intros [= _ <-]. left.
      split; [done | tauto]. }
    destruct (rangeMatch (param r "id") 0 items) as [[index item]|] eqn:Hscan.
    + rewrite (updateItem_found _ _ patch index item Hdec Hscan).
      intros [= _ <-]. right; right; left. exists r, index, item, patch.
      apply rangeMatch_Some in Hscan as (i & -> & Hi & _). done.
    + erewrite updateItem_missing by done. intros [= _ <-]. left.
      split; [done | tauto].
  - destruct (rangeMatch (param r "id") 0 items) as [[index item]|] eqn:Hscan.
    + erewrite deleteItem_found by done. intros [= _ <-].
      right; right; right. by exists r, index.
    + rewrite deleteItem_missing by done. intros [= _ <-]. left.
      split; [done | tauto].
Qed.

Lemma fresh_id_ids id items : fresh_id id items ↔ id ∉ ID <$> items.
Proof.
  unfold fresh_id. rewrite list_elem_of_fmap. split.
  - intros Hfresh (it & -> & Hit). by apply (Hfresh it).
  - intros Hnot it Hit <-. apply Hnot. by exists it.
Qed.

Lemma unique_ids_snoc items it :
  unique_ids (items ++ [it])%list ↔ unique_ids items ∧ ID it ∉ ID <$> items.
Proof.
  unfold unique_ids. rewrite fmap_app, NoDup_app. simpl. split.
  - intros (Hnd & Hdisj & _). split; [done|].
    intros Hin. apply (Hdisj _ Hin), list_elem_of_here.
  - intros [Hnd Hnot]. repeat split; [done | | apply NoDup_singleton].
    intros x Hx ->%list_elem_of_singleton. done.
Qed.

(** One call keeps the ids apart, unless it is a create that collides. *)
Lemma unique_ids_step op items resp items' :
  unique_ids items →
  handle op items = Some (resp, items') →
  unique_ids items' ↔ ¬ collides op items.
Proof.
  intros Huniq Hcall.
  destruct (handle_cases _ _ _ _ Hcall)
    as [[-> Hfree] | [(n & r & patch & -> & Hdec & ->)
       | [(r & index & old & patch & -> & Hold & ->) | (r & index & -> & ->)]]].
  - done.
  - rewrite unique_ids_snoc. simpl. rewrite Hdec. simpl. split.
    + intros [_ Hnot] [_ Hin]. done.
    + intros Hfree. split; [done|]. intros Hin. by apply Hfree.
  - split; [tauto|]. intros _. unfold unique_ids.
    rewrite list_fmap_insert. simpl.
    rewrite list_insert_id; [done|]. by rewrite list_lookup_fmap, Hold.
  - split; [tauto|]. intros _. unfold unique_ids.
    rewrite list_fmap_delete. by eapply sublist_NoDup; [| apply sublist_delete].
Qed.

Lemma unique_ids_main : unique_ids main_items.
Proof. unfold unique_ids. by apply (bool_decide_unpack _). Qed.

(** C1 (amended). A create whose body decodes answers 201 with the item
    it stored at the end of the collection; the id of that item is the
    decimal string of the number drawn, whatever the collection holds,
    and so differs from every id present before the call exactly when
    that string is not among them. *)
Theorem createItem_assigns_drawn_id n r items patch :
  Decode (req_body r) zeroItem = (patch, None) →
  ∃ stored,
    responds (createItem n r items) 201 (PItem stored)
      (items ++ [stored])%list ∧
    stored = mkItem (Itoa n) (Name patch) (Description patch) ∧
    (fresh_id (ID stored) items ↔ Itoa n ∉ ID <$> items).
Proof.
  intros Hdec. exists (mkItem (Itoa n) (Name patch) (Description patch)).
  repeat split.
  - rewrite (createItem_decoded _ _ _ patch Hdec). apply responds_intro.
  - by intros ?%fresh_id_ids.
  - by intros ?%fresh_id_ids.
Qed.

(** C2 (amended). The ids of the seeded collection are pairwise distinct;
    a call on a collection with pairwise distinct ids leaves one with
    pairwise distinct ids unless it is a create that draws an id in use;
    so the ids are pairwise distinct in every collection of a run
    without such a create. *)
Theorem unique_ids_kept :
  unique_ids main_items ∧
  (∀ op items resp items',
     unique_ids items → handle op items = Some (resp, items') →
     unique_ids items' ↔ ¬ collides op items) ∧
  (∀ items, collision_free items → unique_ids items).
Proof.
  split; [apply unique_ids_main|]. split; [apply unique_ids_step|].
  intros items Hrun.
  induction Hrun as [|items op resp items' _ IH _ Hfree Hcall].
  - apply unique_ids_main.
  - by apply (unique_ids_step op items resp items').
Qed.

(** C8. The id a create assigns when it answers 201 is the decimal
    string of a number between 0 and 999999: between one and six
    characters, all of them digits, and no zero in front unless the id
    is ["0"]. *)
Theorem created_id_is_decimal n r items resp items' :
  Intn_range n →
  createItem n r items = Some (resp, items') →
  resp_code resp = 201 →
  ∃ stored,
    resp_body resp = PItem stored ∧ items' = (items ++ [stored])%list ∧
    decimal_value (ID stored) 0 = Some n ∧ (0 ≤ n ≤ 999999)%Z ∧
    (1 ≤ String.length (ID stored) ≤ 6)%nat ∧
    all_digits (ID stored) = true ∧
    no_leading_zero (ID stored) = true.
Proof.
  intros Hn Hcall Hcode.
  destruct (Decode (req_body r) zeroItem) as [patch [e|]] eqn:Hdec.
  - erewrite createItem_undecodable in Hcall by done.
    injection Hcall as <- <-. done.
  - rewrite (createItem_decoded _ _ _ patch Hdec) in Hcall.
    injection Hcall as <- <-.
    destruct (Itoa_spec n Hn) as (Hval & Hlen & Hall & Hlead).
    eexists. repeat split; simpl; try done; unfold Intn_range in Hn; lia.
Qed.

(** ** The test suite, run on the model *)

(** TestGetItems *)
Example TestGetItems :
  getItems (mkRequest ∅ NoValue) resetGlobalItems
  = Some (respondWithJSON 200 (PItems resetGlobalItems), resetGlobalItems).
Proof. reflexivity. Qed.

(** TestGetItem, "Item Found" and "Item Not Found" *)
Example TestGetItem_found :
  getItem (request "1" NoValue) resetGlobalItems
  = Some (respondWithJSON 200 (PItem (mkItem "1" "Mock Item 1" "First mock item")),
          resetGlobalItems).
Proof. reflexivity. Qed.

Example TestGetItem_not_found :
  getItem (request "999" NoValue) resetGlobalItems
  = Some (respondWithError 404 "Item not found", resetGlobalItems).
Proof. reflexivity. Qed.

(** TestCreateItem, "Valid Payload" and "Invalid Payload" *)
Example TestCreateItem_valid n :
  ∃ item items',
    createItem n (mkRequest ∅ newItemBody) resetGlobalItems
    = Some (respondWithJSON 201 (PItem item), items') ∧
    Name item = "New Item" ∧
    (Intn_range n → ID item ≠ "") ∧
    length items' = S (length resetGlobalItems).
Proof.
  eexists _, _. split; [reflexivity|]. simpl. repeat split.
  intros Hn Hid. destruct (Itoa_spec n Hn) as (_ & Hlen & _).
  rewrite Hid in Hlen. simpl in Hlen. lia.
Qed.

Example TestCreateItem_invalid n :
  createItem n (mkRequest ∅ badBody) resetGlobalItems
  = Some (respondWithError 400 "Invalid request payload", resetGlobalItems).
Proof. reflexivity. Qed.

(** TestUpdateItem, "Item Found" and "Item Not Found" *)
Example TestUpdateItem_found :
  updateItem (request "1" updatedBody) resetGlobalItems
  = Some (respondWithJSON 200
            (PItem (mkItem "1" "Updated Name" "Updated Description")),
          [mkItem "1" "Updated Name" "Updated Description";
           mkItem "2" "Mock Item 2" "Second mock item"]).
Proof. reflexivity. Qed.

Example TestUpdateItem_not_found :
  updateItem (request "999" updatedBody) resetGlobalItems
  = Some (respondWithError 404 "Item not found", resetGlobalItems).
Proof. reflexivity. Qed.

(** TestDeleteItem, "Item Found" and "Item Not Found" *)
Example TestDeleteItem_found :
  deleteItem (request "1" NoValue) resetGlobalItems
  = Some (respondWithJSON 200
            (PMap {[ "result" := "success"; "id_deleted" := "1" ]}),
          [mkItem "2" "Mock Item 2" "Second mock item"]).
Proof. reflexivity. Qed.

Example TestDeleteItem_not_found :
  deleteItem (request "999" NoValue) resetGlobalItems
  = Some (respondWithError 404 "Item not found", resetGlobalItems).
Proof. reflexivity. Qed.

(** What [Decode] makes of some bodies. *)
Example Decode_ignores_unknown_keys :
  Decode (NextValue (JObject [("colour", JArray [JNumber "1"]);
                              ("Name", JString "a");
                              ("name", JString "b");
                              ("id", JString "77")])) zeroItem
  = (mkItem "77" "b" "", None).
Proof. reflexivity. Qed.

Example Decode_rejects_number_for_a_field :
  Decode (NextValue (JObject [("name", JNumber "5");
                              ("description", JString "kept")])) zeroItem
  = (mkItem "" "" "kept", Some (UnmarshalTypeError "number" "name")).
Proof. reflexivity. Qed.

Example Decode_rejects_an_array :
  Decode (NextValue (JArray [])) zeroItem
  = (zeroItem, Some (UnmarshalTypeError "array" "")).
Proof. reflexivity. Qed.

(** ** The statements on the requests of the test suite *)

Lemma has_id_head id name description rest :
  has_id id (mkItem id name description :: rest).
Proof. eexists. split; [apply list_elem_of_here | done]. Qed.

Lemma fresh_id_scan id items : rangeMatch id 0 items = None → fresh_id id items.
Proof. apply rangeMatch_None. Qed.

(** A create on the collection [main] seeds, with the draw 1: the id
    assigned is the id of the first seeded item. *)
Lemma createItem_draws_id_in_use :
  reachable main_items ∧ Intn_range 1 ∧
  responds (createItem 1 (mkRequest ∅ newItemBody) main_items) 201
    (PItem (mkItem "1" "New Item" "A new test item"))
    (main_items ++ [mkItem "1" "New Item" "A new test item"])%list ∧
  ¬ fresh_id "1" main_items.
Proof.
  split; [constructor|]. split; [unfold Intn_range; lia|]. split.
  - apply responds_intro.
  - intros Hfresh. by apply (Hfresh (mkItem "1" "Default Item 1"
      "This is the first item")); [apply list_elem_of_here|].
Qed.

(** After a create with a null body and the draw 3, the server that
    [main] started holds two items with the id 3. *)
Lemma duplicate_ids_reachable :
  reachable (main_items ++ [mkItem "3" "" ""])%list ∧
  ¬ unique_ids (main_items ++ [mkItem "3" "" ""])%list.
Proof.
  split.
  - apply (reachable_step main_items
             (OpCreate 3 (mkRequest ∅ (NextValue JNull)))
             (respondWithJSON StatusCreated (PItem (mkItem "3" "" "")))).
    + constructor.
    + unfold op_ok, Intn_range. lia.
    + reflexivity.
  - unfold unique_ids. by apply (bool_decide_unpack _).
Qed.

Lemma createItem_assigns_drawn_id_witness :
  Decode (req_body (mkRequest ∅ newItemBody)) zeroItem
  = (mkItem "" "New Item" "A new test item", None) ∧
  ∃ stored,
    responds (createItem 424242 (mkRequest ∅ newItemBody) resetGlobalItems) 201
      (PItem stored) (resetGlobalItems ++ [stored])%list ∧
    stored = mkItem (Itoa 424242) "New Item" "A new test item" ∧
    (fresh_id (ID stored) resetGlobalItems
     ↔ Itoa 424242 ∉ ID <$> resetGlobalItems).
Proof.
  split; [reflexivity|].
  apply (createItem_assigns_drawn_id 424242 (mkRequest ∅ newItemBody)
           resetGlobalItems (mkItem "" "New Item" "A new test item")).
  reflexivity.
Defined.

Lemma unique_ids_kept_witness :
  unique_ids resetGlobalItems ∧
  handle (OpCreate 424242 (mkRequest ∅ newItemBody)) resetGlobalItems
  = Some (respondWithJSON 201 (PItem (mkItem "424242" "New Item" "A new test item")),
          (resetGlobalItems ++ [mkItem "424242" "New Item" "A new test item"])%list) ∧
  (unique_ids (resetGlobalItems ++ [mkItem "424242" "New Item" "A new test item"])%list
   ↔ ¬ collides (OpCreate 424242 (mkRequest ∅ newItemBody)) resetGlobalItems).
Proof.
  assert (unique_ids resetGlobalItems) as Huniq.
  { unfold unique_ids. apply (bool_decide_unpack _). vm_compute. exact I. }
  split; [exact Huniq|]. split; [reflexivity|].
  apply (proj1 (proj2 unique_ids_kept)
           (OpCreate 424242 (mkRequest ∅ newItemBody)) resetGlobalItems
           (respondWithJSON 201
              (PItem (mkItem "424242" "New Item" "A new test item")))).
  - exact Huniq.
  - reflexivity.
Defined.

Lemma undecodable_body_rejected_witness :
  undecodable (request "1" badBody) ∧
  responds (createItem 424242 (request "1" badBody) resetGlobalItems) 400
    (PMap {[ "error" := "Invalid request payload" ]}) resetGlobalItems ∧
  responds (updateItem (request "1" badBody) resetGlobalItems) 400
    (PMap {[ "error" := "Invalid request payload" ]}) resetGlobalItems.
Proof.
  assert (undecodable (request "1" badBody)) as Hbad
    by (unfold undecodable; simpl; discriminate).
  split; [exact Hbad|].
  apply (undecodable_body_rejected 424242 (request "1" badBody)
           resetGlobalItems Hbad).
Defined.

Lemma updateItem_existing_witness :
  Decode (req_body (request "1" updatedBody)) zeroItem
  = (mkItem "" "Updated Name" "Updated Description", None) ∧
  has_id (param (request "1" updatedBody) "id") resetGlobalItems ∧
  ∃ (index : nat) (old : Item) (items' : list Item),
    resetGlobalItems !! index = Some old ∧
    ID old = param (request "1" updatedBody) "id" ∧
    (∀ (j : nat) it, (j < index)%nat → resetGlobalItems !! j = Some it →
       ID it ≠ param (request "1" updatedBody) "id") ∧
    responds (updateItem (request "1" updatedBody) resetGlobalItems) 200
      (PItem (mkItem (ID old) "Updated Name" "Updated Description")) items' ∧
    length items' = length resetGlobalItems ∧
    items' !! index
    = Some (mkItem (ID old) "Updated Name" "Updated Description") ∧
    ∀ j : nat, j ≠ index → items' !! j = resetGlobalItems !! j.
Proof.
  assert (has_id (param (request "1" updatedBody) "id") resetGlobalItems)
    as Hhas by apply has_id_head.
  split; [reflexivity|]. split; [exact Hhas|].
  apply (updateItem_existing (request "1" updatedBody) resetGlobalItems
           (mkItem "" "Updated Name" "Updated Description") eq_refl Hhas).
Defined.

Lemma deleteItem_existing_witness :
  has_id (param (request "1" NoValue) "id") resetGlobalItems ∧
  ∃ (index : nat) (old : Item) (items' : list Item),
    resetGlobalItems !! index = Some old ∧
    ID old = param (request "1" NoValue) "id" ∧
    (∀ (j : nat) it, (j < index)%nat → resetGlobalItems !! j = Some it →
       ID it ≠ param (request "1" NoValue) "id") ∧
    responds (deleteItem (request "1" NoValue) resetGlobalItems) 200
      (PMap {[ "result" := "success";
               "id_deleted" := param (request "1" NoValue) "id" ]}) items' ∧
    length resetGlobalItems = S (length items') ∧
    items' = (take index resetGlobalItems ++ drop (S index) resetGlobalItems)%list ∧
    (∀ j : nat, (j < index)%nat → items' !! j = resetGlobalItems !! j) ∧
    (∀ j : nat, (index ≤ j)%nat → items' !! j = resetGlobalItems !! S j).
Proof.
  assert (has_id (param (request "1" NoValue) "id") resetGlobalItems)
    as Hhas by apply has_id_head.
  split; [exact Hhas|].
  apply (deleteItem_existing (request "1" NoValue) resetGlobalItems Hhas).
Defined.

Lemma missing_id_not_found_witness :
  fresh_id (param (request "999" updatedBody) "id") resetGlobalItems ∧
  responds (getItem (request "999" updatedBody) resetGlobalItems) 404
    (PMap {[ "error" := "Item not found" ]}) resetGlobalItems ∧
  responds (deleteItem (request "999" updatedBody) resetGlobalItems) 404
    (PMap {[ "error" := "Item not found" ]}) resetGlobalItems ∧
  ∀ patch, Decode (req_body (request "999" updatedBody)) zeroItem = (patch, None) →
    responds (updateItem (request "999" updatedBody) resetGlobalItems) 404
      (PMap {[ "error" := "Item not found" ]}) resetGlobalItems.
Proof.
  assert (fresh_id (param (request "999" updatedBody) "id") resetGlobalItems)
    as Hfresh by (apply fresh_id_scan; reflexivity).
  split; [exact Hfresh|].
  apply (missing_id_not_found (request "999" updatedBody) resetGlobalItems Hfresh).
Defined.

Lemma getItem_existing_witness :
  has_id (param (request "1" NoValue) "id") resetGlobalItems ∧
  ∃ (index : nat) (item : Item),
    resetGlobalItems !! index = Some item ∧
    ID item = param (request "1" NoValue) "id" ∧
    (∀ (j : nat) it, (j < index)%nat → resetGlobalItems !! j = Some it →
       ID it ≠ param (request "1" NoValue) "id") ∧
    responds (getItem (request "1" NoValue) resetGlobalItems) 200
      (PItem item) resetGlobalItems.
Proof.
  assert (has_id (param (request "1" NoValue) "id") resetGlobalItems)
    as Hhas by apply has_id_head.
  split; [exact Hhas|].
  apply (getItem_existing (request "1" NoValue) resetGlobalItems Hhas).
Defined.

Lemma created_id_is_decimal_witness :
  Intn_range 424242 ∧
  createItem 424242 (mkRequest ∅ newItemBody) resetGlobalItems
  = Some (respondWithJSON 201 (PItem (mkItem "424242" "New Item" "A new test item")),
          (resetGlobalItems ++ [mkItem "424242" "New Item" "A new test item"])%list) ∧
  ∃ stored,
    PItem (mkItem "424242" "New Item" "A new test item") = PItem stored ∧
    (resetGlobalItems ++ [mkItem "424242" "New Item" "A new test item"])%list
    = (resetGlobalItems ++ [stored])%list ∧
    decimal_value (ID stored) 0 = Some 424242%Z ∧ (0 ≤ 424242 ≤ 999999)%Z ∧
    (1 ≤ String.length (ID stored) ≤ 6)%nat ∧
    all_digits (ID stored) = true ∧
    no_leading_zero (ID stored) = true.
Proof.
  assert (Intn_range 424242) as Hn by (unfold Intn_range; lia).
  split; [exact Hn|]. split; [reflexivity|].
  apply (created_id_is_decimal 424242 (mkRequest ∅ newItemBody) resetGlobalItems
           (respondWithJSON 201
              (PItem (mkItem "424242" "New Item" "A new test item")))
           (resetGlobalItems ++ [mkItem "424242" "New Item" "A new test item"])%list
           Hn eq_refl eq_refl).
Defined.

Lemma first_duplicate_wins_witness :
  let r := request "1" updatedBody in
  let pre := [mkItem "2" "Mock Item 2" "Second mock item"] in
  let x := mkItem "1" "Mock Item 1" "First mock item" in
  let post := [mkItem "3" "Mock Item 3" "Third mock item";
               mkItem "1" "Mock Item 1 again" "Same id"] in
  fresh_id (param r "id") pre ∧ ID x = param r "id" ∧
  has_id (param r "id") post ∧
  responds (getItem r (pre ++ x :: post)%list) 200 (PItem x)
    (pre ++ x :: post)%list ∧
  responds (deleteItem r (pre ++ x :: post)%list) 200
    (PMap {[ "result" := "success"; "id_deleted" := param r "id" ]})
    (pre ++ post)%list ∧
  ∀ patch, Decode (req_body r) zeroItem = (patch, None) →
    responds (updateItem r (pre ++ x :: post)%list) 200
      (PItem (mkItem (ID x) (Name patch) (Description patch)))
      (pre ++ mkItem (ID x) (Name patch) (Description patch) :: post)%list.
Proof.
  intros r pre x post.
  assert (fresh_id (param r "id") pre) as Hpre
    by (apply fresh_id_scan; reflexivity).
  assert (has_id (param r "id") post) as Hpost.
  { exists (mkItem "1" "Mock Item 1 again" "Same id").
    split; [apply list_elem_of_further, list_elem_of_here | reflexivity]. }
  split; [exact Hpre|]. split; [reflexivity|]. split; [exact Hpost|].
  apply (first_duplicate_wins r pre post x Hpre eq_refl Hpost).
Defined.

Lemma null_body_decodes_witness :
  req_body (request "1" (NextValue JNull)) = NextValue JNull ∧
  responds (createItem 424242 (request "1" (NextValue JNull)) resetGlobalItems)
    201 (PItem (mkItem (Itoa 424242) "" ""))
    (resetGlobalItems ++ [mkItem (Itoa 424242) "" ""])%list ∧
  (has_id (param (request "1" (NextValue JNull)) "id") resetGlobalItems →
   ∃ (index : nat) (old : Item),
     resetGlobalItems !! index = Some old ∧
     ID old = param (request "1" (NextValue JNull)) "id" ∧
     (∀ (j : nat) it, (j < index)%nat → resetGlobalItems !! j = Some it →
        ID it ≠ param (request "1" (NextValue JNull)) "id") ∧
     responds (updateItem (request "1" (NextValue JNull)) resetGlobalItems) 200
       (PItem (mkItem (ID old) "" ""))
       (<[index := mkItem (ID old) "" ""]> resetGlobalItems)).
Proof.
  split; [reflexivity|].
  apply (null_body_decodes 424242 (request "1" (NextValue JNull))
           resetGlobalItems eq_refl).
Defined.

(** ** Further properties of the handlers *)

(** A call read backwards: the response and the collection it leaves, by
    the outcome of the decoding and of the loop. *)
Lemma handle_inv op items resp items' :
  handle op items = Some (resp, items') →
  match op with
  | OpList r => resp = respondWithJSON 200 (PItems items) ∧ items' = items
  | OpGet r =>
      match rangeMatch (param r "id") 0 items with
      | Some (_, item) => resp = respondWithJSON 200 (PItem item) ∧ items' = items
      | None => resp = respondWithError 404 "Item not found" ∧ items' = items
      end
  | OpCreate n r =>
      match Decode (req_body r) zeroItem with
      | (_, Some _) =>
          resp = respondWithError 400 "Invalid request payload" ∧ items' = items
      | (patch, None) =>
          resp = respondWithJSON 201
                   (PItem (mkItem (Itoa n) (Name patch) (Description patch))) ∧
          items' = (items ++ [mkItem (Itoa n) (Name patch) (Description patch)])%list
      end
  | OpUpdate r =>
      match Decode (req_body r) zeroItem with
      | (_, Some _) =>
          resp = respondWithError 400 "Invalid request payload" ∧ items' = items
      | (patch, None) =>
          match rangeMatch (param r "id") 0 items with
          | Some (index, old) =>
              resp = respondWithJSON 200 (PItem (patched old patch)) ∧
              items' = <[index := patched old patch]> items ∧
              items !! index = Some old ∧ ID old = param r "id"
          | None => resp = respondWithError 404 "Item not found" ∧ items' = items
          end
      end
  | OpDelete r =>
      match rangeMatch (param r "id") 0 items with
      | Some (index, old) =>
          resp = respondWithJSON 200
                   (PMap {[ "result" := "success"; "id_deleted" := param r "id" ]}) ∧
          items' = delete index items ∧
          items !! index = Some old ∧ ID old = param r "id"
      | None => resp = respondWithError 404 "Item not found" ∧ items' = items
      end
  end.
Proof.
  destruct op as [r|r|n r|r|r]; simpl.
  - unfold getItems. by intros [= <- <-].
  - destruct (rangeMatch (param r "id") 0 items) as [[index item]|] eqn:Hscan.
    + erewrite getItem_found by done. by intros [= <- <-].
    + rewrite getItem_missing by done. by intros [= <- <-].
  - destruct (Decode (req_body r) zeroItem) as [patch [e|]] eqn:Hdec.
    + erewrite createItem_undecodable by done. by intros [= <- <-].
    + rewrite (createItem_decoded _ _ _ patch Hdec). by intros [= <- <-].
  - destruct (Decode (req_body r) zeroItem) as [patch [e|]] eqn:Hdec.
    { erewrite updateItem_undecodable by done. by intros [= <- <-]. }
    destruct (rangeMatch (param r "id") 0 items) as [[index item]|] eqn:Hscan.
    + rewrite (updateItem_found _ _ patch index item Hdec Hscan).
      intros [= <- <-].
      apply rangeMatch_Some in Hscan as (i & -> & Hi & Hid & _). done.
    + erewrite updateItem_missing by done. by intros [= <- <-].
  - destruct (rangeMatch (param r "id") 0 items) as [[index item]|] eqn:Hscan.
    + erewrite deleteItem_found by done. intros [= <- <-].
      apply rangeMatch_Some in Hscan as (i & -> & Hi & Hid & _). done.
    + rewrite deleteItem_missing by done. by intros [= <- <-].
Qed.

(** Splits a call into the cases of [handle_inv]. *)
Ltac invert_call H :=
  apply handle_inv in H; cbv beta iota in H;
  repeat match type of H with
  | match ?op with OpList _ => _ | _ => _ end => destruct op
  | match Decode ?b ?z with _ => _ end =>
      let Hdec := fresh "Hdec" in
      let patch := fresh "patch" in
      destruct (Decode b z) as [patch [?|]] eqn:Hdec
  | match rangeMatch ?id ?k ?l with _ => _ end =>
      let Hscan := fresh "Hscan" in
      let index := fresh "index" in
      let old := fresh "old" in
      destruct (rangeMatch id k l) as [[index old]|] eqn:Hscan
  end.

(** X1. Every call is answered, without a panic, with the header
    [Content-Type: application/json] and one of the statuses of its
    handler; an answer of status 400 or more is an object with the one
    key [error]. *)
Theorem every_response_is_json op items :
  ∃ resp items',
    handle op items = Some (resp, items') ∧
    resp_header resp !! "Content-Type" = Some "application/json" ∧
    resp_code resp ∈ statuses op ∧
    (400 ≤ resp_code resp →
     ∃ message, resp_body resp = PMap {[ "error" := message ]})%Z.
Proof.
  destruct (handle_total op items) as (resp & items' & Hcall).
  exists resp, items'. split; [done|].
  invert_call Hcall; destruct_and!; subst resp; simpl;
    (split; [done|]); (split; [set_solver|]);
    first [ intros; lia | intros _; by eexists ].
Qed.

(** X2. A call that is a list or a get, or that is answered with a
    status of 400 or more, leaves the collection as it was. *)
Theorem reads_and_errors_keep_collection op items resp items' :
  handle op items = Some (resp, items') →
  (400 ≤ resp_code resp)%Z ∨ (∃ r, op = OpList r ∨ op = OpGet r) →
  items' = items.
Proof.
  intros Hcall Hcase.
  invert_call Hcall; destruct_and!; subst resp; simpl in *; try done;
    destruct Hcase as [? | (? & [? | ?])]; done || lia.
Qed.

(** X3. The length of the collection goes up by one on a create
    answered 201, down by one on a delete answered 200, and stays in
    every other case. *)
Theorem length_follows_status op items resp items' :
  handle op items = Some (resp, items') →
  Z.of_nat (length items')
  = (Z.of_nat (length items) + length_change op (resp_code resp))%Z.
Proof.
  intros Hcall.
  invert_call Hcall; destruct_and!; subst resp items'; simpl; try lia.
  - rewrite length_app. simpl. lia.
  - rewrite length_insert. lia.
  - rewrite length_delete by eauto.
    assert (index < length items)%nat by by eapply lookup_lt_Some. lia.
Qed.

(** X4. An update, whatever its answer, leaves the ids of the collection
    as they were, position by position. *)
Theorem update_keeps_ids r items resp items' :
  updateItem r items = Some (resp, items') →
  ID <$> items' = ID <$> items.
Proof.
  intros Hcall. change (handle (OpUpdate r) items = Some (resp, items')) in Hcall.
  invert_call Hcall;
    [ by destruct Hcall as [_ ->]
    | destruct Hcall as (_ & -> & Hold & _)
    | by destruct Hcall as [_ ->] ].
  rewrite list_fmap_insert. simpl.
  apply list_insert_id. by rewrite list_lookup_fmap, Hold.
Qed.

(** *** The loop on a collection that a call has changed *)

(** An item rewritten under its own id is found where it was. *)
Lemma rangeMatch_insert_eq id (l : list Item) i old new :
  rangeMatch id 0 l = Some (i, old) → ID new = ID old →
  rangeMatch id 0 (<[i := new]> l) = Some (i, new).
Proof.
  intros (k & Hk & Hi & Hid & Hfirst)%rangeMatch_Some Hnew.
  simpl in Hk. subst k. apply rangeMatch_Some. exists i.
  repeat split; [ | congruence | ].
  - apply list_lookup_insert_eq. by eapply lookup_lt_Some.
  - intros j it Hj Hit. rewrite list_lookup_insert_ne in Hit by lia.
    by apply (Hfirst j).
Qed.

(** Rewriting an item under its own id does not move the first item of
    another id. *)
Lemma rangeMatch_insert_ne id (l : list Item) i old new :
  l !! i = Some old → ID new = ID old → ID old ≠ id →
  rangeMatch id 0 (<[i := new]> l) = rangeMatch id 0 l.
Proof.
  intros Hold Hnew Hne.
  destruct (rangeMatch id 0 l) as [[j it]|] eqn:Hscan.
  - apply rangeMatch_Some in Hscan as (k & Hk & Hj & Hid & Hfirst).
    simpl in Hk. subst k. apply rangeMatch_Some. exists j.
    assert (i ≠ j) by (intros ->; congruence).
    repeat split; [by rewrite list_lookup_insert_ne | done |].
    intros j' it' Hj' Hit'.
    destruct (decide (i = j')) as [<- | Hij].
    + rewrite list_lookup_insert_eq in Hit' by by eapply lookup_lt_Some.
      congruence.
    + rewrite list_lookup_insert_ne in Hit' by done. by apply (Hfirst j').
  - apply rangeMatch_None. apply rangeMatch_None in Hscan.
    intros it [j Hit]%list_elem_of_lookup_1.
    destruct (decide (i = j)) as [<- | Hij].
    + rewrite list_lookup_insert_eq in Hit by by eapply lookup_lt_Some.
      congruence.
    + rewrite list_lookup_insert_ne in Hit by done.
      apply Hscan. by eapply list_elem_of_lookup_2.
Qed.

(** The loop on a collection with one more item at its end. *)
Lemma rangeMatch_snoc id start (l : list Item) x :
  rangeMatch id start (l ++ [x])%list
  = match rangeMatch id start l with
    | Some found => Some found
    | None =>
        if bool_decide (ID x = id) then Some ((start + length l)%nat, x) else None
    end.
Proof.
  revert start. induction l as [|y l IH]; intros start; simpl.
  - destruct (bool_decide (ID x = id)); [|done]. do 2 f_equal. lia.
  - destruct (bool_decide (ID y = id)); [done|]. rewrite IH.
    destruct (rangeMatch id (S start) l); [done|].
    destruct (bool_decide (ID x = id)); [|done]. do 2 f_equal. lia.
Qed.

(** With ids pairwise distinct, the id of a deleted item is gone. *)
Lemma fresh_id_delete (l : list Item) i old :
  unique_ids l → l !! i = Some old → fresh_id (ID old) (delete i l).
Proof.
  unfold unique_ids. intros Huniq Hold.
  rewrite <-(take_drop_middle l i old Hold) in Huniq.
  rewrite fmap_app, fmap_cons in Huniq.
  apply NoDup_app in Huniq as (_ & Hleft & Hright).
  apply NoDup_cons in Hright as [Hright _].
  apply fresh_id_ids. rewrite list_fmap_delete, delete_take_drop.
  rewrite <-fmap_take, <-fmap_drop.
  intros [Hin | Hin]%elem_of_app; [|done].
  apply (Hleft _ Hin), list_elem_of_here.
Qed.

(** What an update leaves: the collection it found, or that collection
    with one item rewritten under its own id. *)
Lemma updateItem_shape r items resp s :
  updateItem r items = Some (resp, s) →
  s = items ∨
  ∃ (i : nat) old new, rangeMatch (param r "id") 0 items = Some (i, old) ∧
    ID new = ID old ∧ ID old = param r "id" ∧ s = <[i := new]> items.
Proof.
  intros Hcall. change (handle (OpUpdate r) items = Some (resp, s)) in Hcall.
  invert_call Hcall;
    [ left; by destruct Hcall as [_ ->]
    | destruct Hcall as (_ & -> & Hold & Hid)
    | left; by destruct Hcall as [_ ->] ].
  right. by exists index, old, (patched old patch).
Qed.

(** An update goes through the rewrite of an item of another id. *)
Lemma updateItem_after_rewrite r items resp s i old new :
  updateItem r items = Some (resp, s) →
  items !! i = Some old → ID new = ID old → ID old ≠ param r "id" →
  updateItem r (<[i := new]> items) = Some (resp, <[i := new]> s).
Proof.
  intros Hcall Hold Hnew Hne.
  pose proof (rangeMatch_insert_ne _ _ _ _ _ Hold Hnew Hne) as Hsame.
  change (handle (OpUpdate r) items = Some (resp, s)) in Hcall.
  invert_call Hcall.
  - destruct Hcall as [-> ->]. by erewrite updateItem_undecodable.
  - destruct Hcall as (-> & -> & Hold' & Hid).
    rewrite (updateItem_found _ _ patch index old0 Hdec Hsame).
    do 2 f_equal. apply list_insert_insert_ne. intros ->. congruence.
  - destruct Hcall as [-> ->]. by erewrite updateItem_missing.
Qed.

(** X5. The item an update answers with is the item a get of the same
    id answers with right after it. *)
Theorem get_after_update r r' items resp items' :
  updateItem r items = Some (resp, items') →
  resp_code resp = 200 →
  param r' "id" = param r "id" →
  getItem r' items' = Some (resp, items').
Proof.
  intros Hcall Hcode Hid'.
  change (handle (OpUpdate r) items = Some (resp, items')) in Hcall.
  invert_call Hcall;
    [ by destruct Hcall as [-> _]
    | destruct Hcall as (-> & -> & Hold & Hid)
    | by destruct Hcall as [-> _] ].
  eapply getItem_found. rewrite Hid'. by eapply rangeMatch_insert_eq.
Qed.

(** X6. An update sent twice does what it does sent once: the second
    call gives the same answer and leaves the collection of the first. *)
Theorem update_idempotent r items resp items' :
  updateItem r items = Some (resp, items') →
  updateItem r items' = Some (resp, items').
Proof.
  intros Hcall. pose proof Hcall as Hagain.
  change (handle (OpUpdate r) items = Some (resp, items')) in Hcall.
  invert_call Hcall;
    [ by destruct Hcall as [_ ->]
    | destruct Hcall as (-> & -> & Hold & Hid)
    | by destruct Hcall as [_ ->] ].
  assert (rangeMatch (param r "id") 0 (<[index := patched old patch]> items)
          = Some (index, patched old patch)) as Hscan'
    by by eapply rangeMatch_insert_eq.
  rewrite (updateItem_found _ _ patch index (patched old patch) Hdec Hscan').
  by rewrite list_insert_insert_eq.
Qed.

(** X7. Updates of two different ids can be sent in either order: each
    gets the answer it gets alone, and the collection left is the same. *)
Theorem updates_commute r1 r2 items resp1 resp2 s1 s2 :
  updateItem r1 items = Some (resp1, s1) →
  updateItem r2 items = Some (resp2, s2) →
  param r1 "id" ≠ param r2 "id" →
  ∃ s, updateItem r2 s1 = Some (resp2, s) ∧ updateItem r1 s2 = Some (resp1, s).
Proof.
  intros Hcall1 Hcall2 Hne.
  destruct (updateItem_shape _ _ _ _ Hcall1)
    as [-> | (i1 & old1 & new1 & Hscan1 & Hnew1 & Hid1 & ->)];
  destruct (updateItem_shape _ _ _ _ Hcall2)
    as [-> | (i2 & old2 & new2 & Hscan2 & Hnew2 & Hid2 & ->)].
  - by exists items.
  - exists (<[i2 := new2]> items). split; [done|].
    apply rangeMatch_Some in Hscan2 as (k & Hk & Hold2 & _). simpl in Hk; subst k.
    eapply (updateItem_after_rewrite r1 items resp1 items); [done..|congruence].
  - exists (<[i1 := new1]> items). split; [|done].
    apply rangeMatch_Some in Hscan1 as (k & Hk & Hold1 & _). simpl in Hk; subst k.
    eapply (updateItem_after_rewrite r2 items resp2 items); [done..|congruence].
  - apply rangeMatch_Some in Hscan1 as (k & Hk & Hold1 & _). simpl in Hk; subst k.
    apply rangeMatch_Some in Hscan2 as (k & Hk & Hold2 & _). simpl in Hk; subst k.
    exists (<[i1 := new1]> (<[i2 := new2]> items)). split.
    + eapply updateItem_after_rewrite; [done..|congruence].
    + assert (i1 ≠ i2) by (intros ->; congruence).
      rewrite list_insert_insert_ne by done.
      eapply updateItem_after_rewrite; [done..|congruence].
Qed.

(** X8. A get of the id a create has just assigned: when no item had the
    id, it answers with the created item; when a get of that id was
    answered with an item before the create, it is answered with that
    same item after it, not with the created one. *)
Theorem get_after_create n r r' items resp items' :
  createItem n r items = Some (resp, items') →
  resp_code resp = 201 →
  param r' "id" = Itoa n →
  (fresh_id (Itoa n) items →
   getItem r' items' = Some (respondWithJSON 200 (resp_body resp), items')) ∧
  (∀ answer, getItem r' items = Some (respondWithJSON 200 answer, items) →
   getItem r' items' = Some (respondWithJSON 200 answer, items')).
Proof.
  intros Hcall Hcode Hid.
  change (handle (OpCreate n r) items = Some (resp, items')) in Hcall.
  invert_call Hcall; destruct Hcall as [-> ->]; [done|]. simpl.
  unfold getItem. rewrite Hid, rangeMatch_snoc. split.
  - intros Hfresh%(rangeMatch_None _ 0). rewrite Hfresh. simpl.
    by rewrite bool_decide_eq_true_2.
  - intros answer. destruct (rangeMatch (Itoa n) 0 items) as [[j it]|].
    + by intros [= <-].
    + intros [= ?].
Qed.

(** X9. A delete of the id a create has just assigned: when no item had
    the id, it takes the created item out again and leaves the
    collection of before the create; when a delete of that id succeeded
    on the collection of before the create, it takes out the same older
    item and the created item stays. *)
Theorem delete_after_create n r r' items resp items' :
  createItem n r items = Some (resp, items') →
  resp_code resp = 201 →
  param r' "id" = Itoa n →
  ∃ stored, resp_body resp = PItem stored ∧
    (fresh_id (Itoa n) items →
     deleteItem r' items'
     = Some (respondWithJSON 200
               (PMap {[ "result" := "success"; "id_deleted" := Itoa n ]}),
             items)) ∧
    (∀ answer rest, deleteItem r' items = Some (answer, rest) →
     resp_code answer = 200 →
     deleteItem r' items' = Some (answer, (rest ++ [stored])%list)).
Proof.
  intros Hcall Hcode Hid.
  change (handle (OpCreate n r) items = Some (resp, items')) in Hcall.
  invert_call Hcall; destruct Hcall as [-> ->]; [done|]. simpl.
  eexists. split; [done|]. split.
  - intros Hfresh%(rangeMatch_None _ 0).
    erewrite (deleteItem_found r' _ (length items)).
    + by rewrite Hid, delete_middle, app_nil_r.
    + rewrite Hid, rangeMatch_snoc, Hfresh. simpl.
      by rewrite bool_decide_eq_true_2.
  - intros answer rest Hdel Hok.
    change (handle (OpDelete r') items = Some (answer, rest)) in Hdel.
    invert_call Hdel;
      [destruct Hdel as (-> & -> & Hold & _) | by destruct Hdel as [-> _]].
    erewrite deleteItem_found.
    + do 2 f_equal.
      rewrite !delete_take_drop, <-app_assoc. f_equal.
      * apply take_app_le. apply lookup_lt_Some in Hold. lia.
      * apply drop_app_le. apply lookup_lt_Some in Hold. lia.
    + by rewrite rangeMatch_snoc, Hscan.
Qed.

(** X10. In a collection with pairwise distinct ids a delete that
    succeeded is final: no item has the id any more, and a second delete
    and a get of it are answered 404. *)
Theorem delete_is_final r items resp items' :
  unique_ids items →
  deleteItem r items = Some (resp, items') →
  resp_code resp = 200 →
  fresh_id (param r "id") items' ∧
  deleteItem r items'
  = Some (respondWithError 404 "Item not found", items') ∧
  getItem r items' = Some (respondWithError 404 "Item not found", items').
Proof.
  intros Huniq Hcall Hcode.
  change (handle (OpDelete r) items = Some (resp, items')) in Hcall.
  invert_call Hcall;
    [destruct Hcall as (-> & -> & Hold & Hid) | by destruct Hcall as [-> _]].
  assert (fresh_id (param r "id") (delete index items)) as Hfresh
    by (rewrite <-Hid; by apply fresh_id_delete).
  split; [done|]. apply (rangeMatch_None _ 0) in Hfresh.
  by rewrite deleteItem_missing, getItem_missing.
Qed.

(** X11. Two draws are written as the same id only if they are the same
    number. *)
Theorem Itoa_injective n m :
  Intn_range n → Intn_range m → Itoa n = Itoa m → n = m.
Proof.
  intros Hn Hm Heq.
  destruct (Itoa_spec n Hn) as (Hvn & _), (Itoa_spec m Hm) as (Hvm & _).
  rewrite Heq in Hvn. congruence.
Qed.

(** The ids of the seeded items and the ids create writes are decimal. *)
Lemma decimal_id_Itoa n : Intn_range n → decimal_id (Itoa n) = true.
Proof.
  intros (_ & Hlen & Hall & Hlead)%Itoa_spec. unfold decimal_id.
  rewrite Hall, Hlead, !(proj2 (Nat.leb_le _ _)) by lia. done.
Qed.

Lemma elem_of_insert_inv (l : list Item) i x y :
  x ∈ <[i := y]> l → x = y ∨ x ∈ l.
Proof.
  intros [j Hj]%list_elem_of_lookup_1.
  apply list_lookup_insert_Some in Hj as [(-> & -> & _) | [_ Hj]]; [by left|].
  right. by eapply list_elem_of_lookup_2.
Qed.

(** The ids of a run are decimal: those [main] seeds are, create writes
    such an id, update keeps the ids and delete adds none. *)
Lemma reachable_decimal items it :
  reachable items → it ∈ items → decimal_id (ID it) = true.
Proof.
  intros Hrun. revert it.
  induction Hrun as [|items op resp items' _ IH Hok Hcall]; intros it Hit.
  - repeat (apply elem_of_cons in Hit as [-> | Hit]; [done|]).
    by apply elem_of_nil in Hit.
  - destruct (handle_cases _ _ _ _ Hcall)
      as [[-> _] | [(n & r & patch & -> & _ & ->)
         | [(r & index & old & patch & -> & Hold & ->) | (r & index & -> & ->)]]].
    + by apply IH.
    + apply elem_of_app in Hit as [Hit | ->%list_elem_of_singleton];
        [by apply IH | by apply decimal_id_Itoa].
    + apply elem_of_insert_inv in Hit as [-> | Hit]; [|by apply IH].
      simpl. apply IH. by eapply list_elem_of_lookup_2.
    + apply IH. by eapply list_elem_of_delete_inv.
Qed.

(** X12. In every collection a server started by [main] can hold, each
    id is a string of one to six digits with no zero in front unless it
    is ["0"]: no request puts another id into the collection. *)
Theorem reachable_ids_decimal items :
  reachable items → Forall (λ it, decimal_id (ID it) = true) items.
Proof. intros Hrun. apply Forall_forall. intros it. by apply reachable_decimal. Qed.

(** X13. On a collection that a server started by [main] can hold, a
    request whose id is no such string (the empty id of a request
    without a path variable, for one) is answered 404 by get and by
    delete, and by update when its body decodes. *)
Theorem other_ids_not_found r items :
  reachable items →
  decimal_id (param r "id") = false →
  getItem r items = Some (respondWithError 404 "Item not found", items) ∧
  deleteItem r items = Some (respondWithError 404 "Item not found", items) ∧
  ∀ patch, Decode (req_body r) zeroItem = (patch, None) →
    updateItem r items = Some (respondWithError 404 "Item not found", items).
Proof.
  intros Hrun Hid.
  assert (rangeMatch (param r "id") 0 items = None) as Hscan.
  { apply rangeMatch_None. intros it Hit Heq.
    pose proof (reachable_decimal items it Hrun Hit) as Hdec.
    congruence. }
  repeat split.
  - by apply getItem_missing.
  - by apply deleteItem_missing.
  - intros patch Hdec. by eapply updateItem_missing.
Qed.

(** *** Which bodies are refused *)

Lemma saveError_Some saved err : saveError saved err ≠ None.
Proof. by destruct saved. Qed.

(** The decoding of an object ends without an error exactly when none
    was saved before it and every member is storable. *)
Lemma objectInto_error members :
  ∀ item saved,
    (objectInto members item saved).2 = None ↔
    saved = None ∧ forallb storable members = true.
Proof.
  induction members as [|[key v] rest IH]; intros item saved; simpl.
  - split; [by intros -> | by intros [-> _]].
  - unfold storable at 1. simpl. destruct (lookupField key) as [f|].
    + destruct v; simpl; rewrite IH; try done;
        (split; [intros [Hsaved _]; by apply saveError_Some in Hsaved
                | by intros [_ ?]]).
    + by rewrite IH.
Qed.

Lemma Decode_error b item :
  (Decode b item).2 = None ↔ decodable_body b = true.
Proof.
  destruct b as [|[]]; simpl; try done.
  rewrite objectInto_error. split; [by intros [_ ?] | done].
Qed.

(** X14. Create and update answer 400 exactly when the body is no JSON
    value, or a value that is neither null nor an object, or an object
    in which a key that names a field of the item ([id] included, in any
    letter case) has a value that is neither a string nor null. *)
Theorem bad_request_iff n r items :
  (createItem n r items
   = Some (respondWithError 400 "Invalid request payload", items)
   ↔ decodable_body (req_body r) = false) ∧
  (updateItem r items
   = Some (respondWithError 400 "Invalid request payload", items)
   ↔ decodable_body (req_body r) = false).
Proof.
  pose proof (Decode_error (req_body r) zeroItem) as Hiff.
  destruct (Decode (req_body r) zeroItem) as [patch [e|]] eqn:Hdec; simpl in Hiff.
  - assert (decodable_body (req_body r) = false) as Hbad.
    { destruct (decodable_body (req_body r)) eqn:Hbody; [|done].
      by pose proof (proj2 Hiff eq_refl). }
    split.
    + by erewrite createItem_undecodable.
    + by erewrite updateItem_undecodable.
  - rewrite (proj1 Hiff eq_refl). split.
    + rewrite (createItem_decoded _ _ _ patch Hdec). split; [|done].
      intros [= ?].
    + destruct (rangeMatch (param r "id") 0 items) as [[index old]|] eqn:Hscan.
      * rewrite (updateItem_found _ _ patch index old Hdec Hscan).
        split; [|done]. intros [= ?].
      * rewrite (updateItem_missing _ _ patch Hdec Hscan).
        split; [|done]. intros [= ?].
Qed.

(** X15. Create and update use of a body only the name and the
    description it decodes to: two bodies that agree on both, whatever
    [id] either carries, get the same answer and leave the same
    collection. *)
Theorem client_id_ignored n r1 r2 items p1 p2 :
  Decode (req_body r1) zeroItem = (p1, None) →
  Decode (req_body r2) zeroItem = (p2, None) →
  Name p1 = Name p2 → Description p1 = Description p2 →
  createItem n r1 items = createItem n r2 items ∧
  (param r1 "id" = param r2 "id" → updateItem r1 items = updateItem r2 items).
Proof.
  intros Hdec1 Hdec2 Hname Hdesc. split.
  - rewrite (createItem_decoded _ _ _ p1 Hdec1), (createItem_decoded _ _ _ p2 Hdec2).
    by rewrite Hname, Hdesc.
  - intros Hid.
    destruct (rangeMatch (param r1 "id") 0 items) as [[index old]|] eqn:Hscan.
    + rewrite (updateItem_found _ _ p1 index old Hdec1 Hscan).
      rewrite Hid in Hscan.
      rewrite (updateItem_found _ _ p2 index old Hdec2 Hscan).
      unfold patched. by rewrite Hname, Hdesc.
    + rewrite (updateItem_missing _ _ p1 Hdec1 Hscan).
      rewrite Hid in Hscan.
      by rewrite (updateItem_missing _ _ p2 Hdec2 Hscan).
Qed.

(** *** Every decimal id is written by some draw *)

Section Drawn.
Local Open Scope Z_scope.

Lemma append_empty (s : string) : String.append s "" = s.
Proof.
  induction s as [|c s IH]; [done|].
  change (String c (String.append s "") = String c s). by rewrite IH.
Qed.

Lemma digit_of_char c :
  is_digit c = true →
  0 ≤ Z.of_nat (nat_of_ascii c) - 48 ≤ 9 ∧
  digit (Z.of_nat (nat_of_ascii c) - 48) = c.
Proof.
  unfold is_digit. intros [Hlo Hhi]%andb_true_iff.
  apply Nat.leb_le in Hlo, Hhi. split; [lia|].
  unfold digit.
  replace (Z.to_nat (48 + (Z.of_nat (nat_of_ascii c) - 48))) with (nat_of_ascii c)
    by lia.
  apply ascii_nat_embedding.
Qed.

(** A string of digits read after [a] denotes [a] shifted by its length
    plus a number below the power of ten of that length. *)
Lemma decimal_value_bound t :
  all_digits t = true →
  ∀ a, ∃ v, decimal_value t a = Some (a * 10 ^ Z.of_nat (String.length t) + v) ∧
            0 ≤ v < 10 ^ Z.of_nat (String.length t).
Proof.
  induction t as [|c t IH]; intros Hall a.
  - exists 0. simpl. split; [f_equal|]; lia.
  - simpl in Hall. apply andb_true_iff in Hall as [Hc Hall].
    destruct (digit_of_char c Hc) as [Hd _].
    destruct (IH Hall (10 * a + (Z.of_nat (nat_of_ascii c) - 48))) as (v & Hv & Hb).
    exists ((Z.of_nat (nat_of_ascii c) - 48) * 10 ^ Z.of_nat (String.length t) + v).
    cbn [decimal_value String.length]. rewrite Hc, Hv.
    replace (Z.of_nat (S (String.length t)))
      with (Z.succ (Z.of_nat (String.length t))) by lia.
    rewrite Z.pow_succ_r by lia. split; [f_equal; lia | nia].
Qed.

(** Writing the number that the digits [t], read after a positive [a],
    denote puts [t] in front of the accumulator and goes on with [a]. *)
Lemma formatBits_decimal_value t :
  all_digits t = true →
  ∀ (f : nat) a acc v,
    0 < a → decimal_value t a = Some v →
    formatBits (f + String.length t) v acc
    = formatBits f a (String.append t acc).
Proof.
  induction t as [|c t IH]; intros Hall f a acc v Ha Hv.
  - simpl in Hv. injection Hv as <-. cbn. by rewrite Nat.add_0_r.
  - simpl in Hall. apply andb_true_iff in Hall as [Hc Hall].
    destruct (digit_of_char c Hc) as [Hd Hchar].
    cbn [decimal_value] in Hv. rewrite Hc in Hv.
    cbn [String.length String.append].
    replace (f + S (String.length t))%nat with (S f + String.length t)%nat by lia.
    rewrite (IH Hall (S f) (10 * a + (Z.of_nat (nat_of_ascii c) - 48)) acc v)
      by (lia || done).
    cbn [formatBits].
    rewrite (proj2 (Z.ltb_ge _ 10)) by lia.
    replace ((10 * a + (Z.of_nat (nat_of_ascii c) - 48)) / 10) with a
      by (apply Z.div_unique with (Z.of_nat (nat_of_ascii c) - 48); lia).
    replace ((10 * a + (Z.of_nat (nat_of_ascii c) - 48)) mod 10)
      with (Z.of_nat (nat_of_ascii c) - 48)
      by (apply Z.mod_unique with a; lia).
    by rewrite Hchar.
Qed.

(** Every decimal id is the id of a draw. *)
Lemma Itoa_surjective s :
  decimal_id s = true → ∃ n, Intn_range n ∧ Itoa n = s.
Proof.
  unfold decimal_id.
  intros [[[Hall Hlead]%andb_true_iff Hmin%Nat.leb_le]%andb_true_iff
          Hmax%Nat.leb_le]%andb_true_iff.
  destruct s as [|c t]; [simpl in Hmin; lia|].
  simpl in Hall. apply andb_true_iff in Hall as [Hc Hall].
  destruct (digit_of_char c Hc) as [Hd Hchar].
  destruct (decide (Z.of_nat (nat_of_ascii c) - 48 = 0)) as [Hzero | Hpos].
  - rewrite Hzero in Hchar. subst c. destruct t as [|c' t]; [|done].
    exists 0. split; [unfold Intn_range; lia | done].
  - destruct (decimal_value_bound t Hall (Z.of_nat (nat_of_ascii c) - 48))
      as (v & Hv & Hb).
    simpl in Hmax.
    assert (0 < 10 ^ Z.of_nat (String.length t) ≤ 100000) as Hpow.
    { split; [apply Z.pow_pos_nonneg; lia|].
      change 100000 with (10 ^ 5). apply Z.pow_le_mono_r; lia. }
    set (d := Z.of_nat (nat_of_ascii c) - 48) in *.
    set (P := 10 ^ Z.of_nat (String.length t)) in *.
    assert (0 ≤ d * P + v < 1000000) as Hn by nia.
    exists (d * P + v). split; [done|]. unfold Itoa.
    rewrite (proj2 (Z.ltb_ge _ 0)) by lia.
    replace 20%nat with ((20 - String.length t) + String.length t)%nat by lia.
    rewrite (formatBits_decimal_value t Hall _ d "" _ ltac:(lia) Hv).
    destruct (20 - String.length t)%nat as [|f] eqn:Hf; [lia|].
    cbn [formatBits]. rewrite (proj2 (Z.ltb_lt _ 10)) by lia.
    by rewrite Hchar, append_empty.
Qed.

End Drawn.

(** X16. In every collection a server started by [main] can hold, the
    id of each item can be drawn again: for some draw of the range a
    create with a decodable body is answered 201 with that id, and the
    collection it leaves has two items of the same id. *)
Theorem every_id_can_be_drawn_again items it r patch :
  reachable items → it ∈ items →
  Decode (req_body r) zeroItem = (patch, None) →
  ∃ n, Intn_range n ∧
    createItem n r items
    = Some (respondWithJSON 201
              (PItem (mkItem (ID it) (Name patch) (Description patch))),
            (items ++ [mkItem (ID it) (Name patch) (Description patch)])%list) ∧
    ¬ unique_ids (items ++ [mkItem (ID it) (Name patch) (Description patch)])%list.
Proof.
  intros Hrun Hit Hdec.
  destruct (Itoa_surjective (ID it)) as (n & Hn & Hid);
    [by apply (reachable_decimal items)|].
  exists n. split; [done|]. split.
  - by rewrite (createItem_decoded _ _ _ patch Hdec), Hid.
  - intros [_ Hnot]%unique_ids_snoc. apply Hnot. simpl.
    by apply list_elem_of_fmap_2.
Qed.

(** *** Calls about one id and gets of another *)

(** The item the loop stops at does not depend on where it starts to
    count. *)
Lemma rangeMatch_start id start start' (l : list Item) :
  snd <$> rangeMatch id start l = snd <$> rangeMatch id start' l.
Proof.
  revert start start'. induction l as [|x l IH]; intros start start'; simpl.
  - done.
  - destruct (bool_decide (ID x = id)); [done | apply IH].
Qed.

(** Taking out an item of another id does not change the item the loop
    stops at. *)
Lemma rangeMatch_delete_ne id (l : list Item) :
  ∀ start i old, l !! i = Some old → ID old ≠ id →
    snd <$> rangeMatch id start (delete i l) = snd <$> rangeMatch id start l.
Proof.
  induction l as [|x l IH]; intros start [|i] old Hold Hne; simplify_eq/=.
  - rewrite bool_decide_eq_false_2 by done. apply rangeMatch_start.
  - destruct (bool_decide (ID x = id)); [done | by eapply IH].
Qed.

(** X17. A create, an update or a delete does not change what a get of
    an id other than its own is answered with. *)
Theorem calls_keep_other_ids op items resp items' r :
  handle op items = Some (resp, items') →
  target op ≠ Some (param r "id") →
  ∃ answer,
    getItem r items = Some (answer, items) ∧
    getItem r items' = Some (answer, items').
Proof.
  intros Hcall Hother.
  assert (∀ l, getItem r l
               = Some (match snd <$> rangeMatch (param r "id") 0 l with
                       | Some item => respondWithJSON StatusOK (PItem item)
                       | None => respondWithError StatusNotFound "Item not found"
                       end, l)) as Hget.
  { intros l. unfold getItem.
    by destruct (rangeMatch (param r "id") 0 l) as [[? ?]|]. }
  eexists. split; [apply Hget|]. rewrite Hget.
  assert (snd <$> rangeMatch (param r "id") 0 items'
          = snd <$> rangeMatch (param r "id") 0 items) as ->; [|done].
  invert_call Hcall; simpl in Hother.
  - by destruct Hcall as [_ ->].
  - by destruct Hcall as [_ ->].
  - by destruct Hcall as [_ ->].
  - by destruct Hcall as [_ ->].
  - destruct Hcall as [_ ->]. rewrite rangeMatch_snoc.
    destruct (rangeMatch (param r "id") 0 items); [done|]. simpl.
    rewrite bool_decide_eq_false_2; [done | congruence].
  - by destruct Hcall as [_ ->].
  - destruct Hcall as (_ & -> & Hold & Hid).
    erewrite rangeMatch_insert_ne; [done..|congruence].
  - by destruct Hcall as [_ ->].
  - destruct Hcall as (_ & -> & Hold & Hid).
    eapply rangeMatch_delete_ne; [done|congruence].
  - by destruct Hcall as [_ ->].
Qed.

(** X18. Get and delete answer 404 exactly when no item of the
    collection has the id, and so does update when its body decodes: a
    404 is never the answer for an id the collection holds. *)
Theorem not_found_iff_absent r items :
  (getItem r items = Some (respondWithError 404 "Item not found", items)
   ↔ fresh_id (param r "id") items) ∧
  (deleteItem r items = Some (respondWithError 404 "Item not found", items)
   ↔ fresh_id (param r "id") items) ∧
  (decodable_body (req_body r) = true →
   updateItem r items = Some (respondWithError 404 "Item not found", items)
   ↔ fresh_id (param r "id") items).
Proof.
  rewrite <-(rangeMatch_None _ 0).
  destruct (rangeMatch (param r "id") 0 items) as [[index old]|] eqn:Hscan.
  - split; [|split].
    + erewrite getItem_found by done. split; [intros [= ?] | done].
    + erewrite deleteItem_found by done. split; [intros [= ?] | done].
    + intros Hbody. apply (Decode_error _ zeroItem) in Hbody.
      destruct (Decode (req_body r) zeroItem) as [patch [e|]] eqn:Hdec; [done|].
      rewrite (updateItem_found _ _ patch index old Hdec Hscan).
      split; [intros [= ?] | done].
  - split; [|split].
    + by rewrite getItem_missing.
    + by rewrite deleteItem_missing.
    + intros Hbody. apply (Decode_error _ zeroItem) in Hbody.
      destruct (Decode (req_body r) zeroItem) as [patch [e|]] eqn:Hdec; [done|].
      by rewrite (updateItem_missing _ _ patch Hdec Hscan).
Qed.

(** *** The further statements on the requests of the test suite *)

Lemma reads_and_errors_keep_collection_witness :
  handle (OpDelete (request "999" NoValue)) resetGlobalItems
  = Some (respondWithError 404 "Item not found", resetGlobalItems) ∧
  ((400 ≤ resp_code (respondWithError 404 "Item not found"))%Z ∨
   (∃ r, OpDelete (request "999" NoValue) = OpList r ∨
         OpDelete (request "999" NoValue) = OpGet r)) ∧
  resetGlobalItems = resetGlobalItems.
Proof.
  assert ((400 ≤ resp_code (respondWithError 404 "Item not found"))%Z ∨
          (∃ r, OpDelete (request "999" NoValue) = OpList r ∨
                OpDelete (request "999" NoValue) = OpGet r)) as Hcase
    by (left; simpl; lia).
  split; [reflexivity|]. split; [exact Hcase|].
  apply (reads_and_errors_keep_collection (OpDelete (request "999" NoValue))
           resetGlobalItems (respondWithError 404 "Item not found")
           resetGlobalItems eq_refl Hcase).
Defined.

Lemma length_follows_status_witness :
  handle (OpCreate 424242 (mkRequest ∅ newItemBody)) resetGlobalItems
  = Some (respondWithJSON 201 (PItem (mkItem "424242" "New Item" "A new test item")),
          (resetGlobalItems ++ [mkItem "424242" "New Item" "A new test item"])%list) ∧
  Z.of_nat (length (resetGlobalItems
                    ++ [mkItem "424242" "New Item" "A new test item"])%list)
  = (Z.of_nat (length resetGlobalItems)
     + length_change (OpCreate 424242 (mkRequest ∅ newItemBody))
         (resp_code (respondWithJSON 201
            (PItem (mkItem "424242" "New Item" "A new test item")))))%Z.
Proof.
  split; [reflexivity|].
  apply (length_follows_status (OpCreate 424242 (mkRequest ∅ newItemBody))
           resetGlobalItems
           (respondWithJSON 201 (PItem (mkItem "424242" "New Item" "A new test item")))
           (resetGlobalItems ++ [mkItem "424242" "New Item" "A new test item"])%list
           eq_refl).
Defined.

Lemma update_keeps_ids_witness :
  updateItem (request "1" updatedBody) resetGlobalItems
  = Some (respondWithJSON 200
            (PItem (mkItem "1" "Updated Name" "Updated Description")),
          [mkItem "1" "Updated Name" "Updated Description";
           mkItem "2" "Mock Item 2" "Second mock item"]) ∧
  ID <$> [mkItem "1" "Updated Name" "Updated Description";
          mkItem "2" "Mock Item 2" "Second mock item"]
  = ID <$> resetGlobalItems.
Proof.
  split; [reflexivity|].
  apply (update_keeps_ids (request "1" updatedBody) resetGlobalItems
           (respondWithJSON 200
              (PItem (mkItem "1" "Updated Name" "Updated Description")))
           [mkItem "1" "Updated Name" "Updated Description";
            mkItem "2" "Mock Item 2" "Second mock item"] eq_refl).
Defined.

Lemma get_after_update_witness :
  updateItem (request "1" updatedBody) resetGlobalItems
  = Some (respondWithJSON 200
            (PItem (mkItem "1" "Updated Name" "Updated Description")),
          [mkItem "1" "Updated Name" "Updated Description";
           mkItem "2" "Mock Item 2" "Second mock item"]) ∧
  resp_code (respondWithJSON 200
               (PItem (mkItem "1" "Updated Name" "Updated Description"))) = 200 ∧
  param (request "1" NoValue) "id" = param (request "1" updatedBody) "id" ∧
  getItem (request "1" NoValue)
    [mkItem "1" "Updated Name" "Updated Description";
     mkItem "2" "Mock Item 2" "Second mock item"]
  = Some (respondWithJSON 200
            (PItem (mkItem "1" "Updated Name" "Updated Description")),
          [mkItem "1" "Updated Name" "Updated Description";
           mkItem "2" "Mock Item 2" "Second mock item"]).
Proof.
  split; [reflexivity|]. split; [reflexivity|]. split; [reflexivity|].
  apply (get_after_update (request "1" updatedBody) (request "1" NoValue)
           resetGlobalItems
           (respondWithJSON 200
              (PItem (mkItem "1" "Updated Name" "Updated Description")))
           [mkItem "1" "Updated Name" "Updated Description";
            mkItem "2" "Mock Item 2" "Second mock item"]
           eq_refl eq_refl eq_refl).
Defined.

Lemma update_idempotent_witness :
  updateItem (request "1" updatedBody) resetGlobalItems
  = Some (respondWithJSON 200
            (PItem (mkItem "1" "Updated Name" "Updated Description")),
          [mkItem "1" "Updated Name" "Updated Description";
           mkItem "2" "Mock Item 2" "Second mock item"]) ∧
  updateItem (request "1" updatedBody)
    [mkItem "1" "Updated Name" "Updated Description";
     mkItem "2" "Mock Item 2" "Second mock item"]
  = Some (respondWithJSON 200
            (PItem (mkItem "1" "Updated Name" "Updated Description")),
          [mkItem "1" "Updated Name" "Updated Description";
           mkItem "2" "Mock Item 2" "Second mock item"]).
Proof.
  split; [reflexivity|].
  apply (update_idempotent (request "1" updatedBody) resetGlobalItems
           (respondWithJSON 200
              (PItem (mkItem "1" "Updated Name" "Updated Description")))
           [mkItem "1" "Updated Name" "Updated Description";
            mkItem "2" "Mock Item 2" "Second mock item"] eq_refl).
Defined.

Lemma updates_commute_witness :
  updateItem (request "1" updatedBody) resetGlobalItems
  = Some (respondWithJSON 200
            (PItem (mkItem "1" "Updated Name" "Updated Description")),
          [mkItem "1" "Updated Name" "Updated Description";
           mkItem "2" "Mock Item 2" "Second mock item"]) ∧
  updateItem (request "2" (NextValue JNull)) resetGlobalItems
  = Some (respondWithJSON 200 (PItem (mkItem "2" "" "")),
          [mkItem "1" "Mock Item 1" "First mock item"; mkItem "2" "" ""]) ∧
  param (request "1" updatedBody) "id" ≠ param (request "2" (NextValue JNull)) "id" ∧
  ∃ s,
    updateItem (request "2" (NextValue JNull))
      [mkItem "1" "Updated Name" "Updated Description";
       mkItem "2" "Mock Item 2" "Second mock item"]
    = Some (respondWithJSON 200 (PItem (mkItem "2" "" "")), s) ∧
    updateItem (request "1" updatedBody)
      [mkItem "1" "Mock Item 1" "First mock item"; mkItem "2" "" ""]
    = Some (respondWithJSON 200
              (PItem (mkItem "1" "Updated Name" "Updated Description")), s).
Proof.
  assert (param (request "1" updatedBody) "id"
          ≠ param (request "2" (NextValue JNull)) "id") as Hne by discriminate.
  split; [reflexivity|]. split; [reflexivity|]. split; [exact Hne|].
  apply (updates_commute (request "1" updatedBody) (request "2" (NextValue JNull))
           resetGlobalItems _ _ _ _ eq_refl eq_refl Hne).
Defined.

Lemma get_after_create_witness :
  createItem 424242 (mkRequest ∅ newItemBody) resetGlobalItems
  = Some (respondWithJSON 201 (PItem (mkItem "424242" "New Item" "A new test item")),
          (resetGlobalItems ++ [mkItem "424242" "New Item" "A new test item"])%list) ∧
  resp_code (respondWithJSON 201
               (PItem (mkItem "424242" "New Item" "A new test item"))) = 201 ∧
  param (request "424242" NoValue) "id" = Itoa 424242 ∧
  (fresh_id (Itoa 424242) resetGlobalItems →
   getItem (request "424242" NoValue)
     (resetGlobalItems ++ [mkItem "424242" "New Item" "A new test item"])%list
   = Some (respondWithJSON 200
             (resp_body (respondWithJSON 201
                (PItem (mkItem "424242" "New Item" "A new test item")))),
           (resetGlobalItems ++ [mkItem "424242" "New Item" "A new test item"])%list)) ∧
  (∀ answer,
     getItem (request "424242" NoValue) resetGlobalItems
     = Some (respondWithJSON 200 answer, resetGlobalItems) →
     getItem (request "424242" NoValue)
       (resetGlobalItems ++ [mkItem "424242" "New Item" "A new test item"])%list
     = Some (respondWithJSON 200 answer,
             (resetGlobalItems ++ [mkItem "424242" "New Item" "A new test item"])%list)).
Proof.
  split; [reflexivity|]. split; [reflexivity|]. split; [reflexivity|].
  apply (get_after_create 424242 (mkRequest ∅ newItemBody)
           (request "424242" NoValue) resetGlobalItems
           (respondWithJSON 201 (PItem (mkItem "424242" "New Item" "A new test item")))
           (resetGlobalItems ++ [mkItem "424242" "New Item" "A new test item"])%list
           eq_refl eq_refl eq_refl).
Defined.

Lemma delete_after_create_witness :
  createItem 424242 (mkRequest ∅ newItemBody) resetGlobalItems
  = Some (respondWithJSON 201 (PItem (mkItem "424242" "New Item" "A new test item")),
          (resetGlobalItems ++ [mkItem "424242" "New Item" "A new test item"])%list) ∧
  resp_code (respondWithJSON 201
               (PItem (mkItem "424242" "New Item" "A new test item"))) = 201 ∧
  param (request "424242" NoValue) "id" = Itoa 424242 ∧
  ∃ stored,
    resp_body (respondWithJSON 201
                 (PItem (mkItem "424242" "New Item" "A new test item")))
    = PItem stored ∧
    (fresh_id (Itoa 424242) resetGlobalItems →
     deleteItem (request "424242" NoValue)
       (resetGlobalItems ++ [mkItem "424242" "New Item" "A new test item"])%list
     = Some (respondWithJSON 200
               (PMap {[ "result" := "success"; "id_deleted" := Itoa 424242 ]}),
             resetGlobalItems)) ∧
    (∀ answer rest,
       deleteItem (request "424242" NoValue) resetGlobalItems = Some (answer, rest) →
       resp_code answer = 200 →
       deleteItem (request "424242" NoValue)
         (resetGlobalItems ++ [mkItem "424242" "New Item" "A new test item"])%list
       = Some (answer, (rest ++ [stored])%list)).
Proof.
  split; [reflexivity|]. split; [reflexivity|]. split; [reflexivity|].
  apply (delete_after_create 424242 (mkRequest ∅ newItemBody)
           (request "424242" NoValue) resetGlobalItems
           (respondWithJSON 201 (PItem (mkItem "424242" "New Item" "A new test item")))
           (resetGlobalItems ++ [mkItem "424242" "New Item" "A new test item"])%list
           eq_refl eq_refl eq_refl).
Defined.

Lemma delete_is_final_witness :
  unique_ids resetGlobalItems ∧
  deleteItem (request "1" NoValue) resetGlobalItems
  = Some (respondWithJSON 200
            (PMap {[ "result" := "success"; "id_deleted" := "1" ]}),
          [mkItem "2" "Mock Item 2" "Second mock item"]) ∧
  resp_code (respondWithJSON 200
               (PMap {[ "result" := "success"; "id_deleted" := "1" ]})) = 200 ∧
  fresh_id (param (request "1" NoValue) "id")
    [mkItem "2" "Mock Item 2" "Second mock item"] ∧
  deleteItem (request "1" NoValue) [mkItem "2" "Mock Item 2" "Second mock item"]
  = Some (respondWithError 404 "Item not found",
          [mkItem "2" "Mock Item 2" "Second mock item"]) ∧
  getItem (request "1" NoValue) [mkItem "2" "Mock Item 2" "Second mock item"]
  = Some (respondWithError 404 "Item not found",
          [mkItem "2" "Mock Item 2" "Second mock item"]).
Proof.
  assert (unique_ids resetGlobalItems) as Huniq.
  { unfold unique_ids. apply (bool_decide_unpack _). vm_compute. exact I. }
  split; [exact Huniq|]. split; [reflexivity|]. split; [reflexivity|].
  apply (delete_is_final (request "1" NoValue) resetGlobalItems
           (respondWithJSON 200
              (PMap {[ "result" := "success"; "id_deleted" := "1" ]}))
           [mkItem "2" "Mock Item 2" "Second mock item"]
           Huniq eq_refl eq_refl).
Defined.

Lemma Itoa_injective_witness :
  Intn_range 42 ∧ Intn_range (40 + 2) ∧ Itoa 42 = Itoa (40 + 2) ∧
  42%Z = (40 + 2)%Z.
Proof.
  assert (Intn_range 42) as Hn by (unfold Intn_range; lia).
  assert (Intn_range (40 + 2)) as Hm by (unfold Intn_range; lia).
  split; [exact Hn|]. split; [exact Hm|]. split; [reflexivity|].
  apply (Itoa_injective 42 (40 + 2) Hn Hm eq_refl).
Defined.

Lemma reachable_ids_decimal_witness :
  reachable main_items ∧
  Forall (λ it, decimal_id (ID it) = true) main_items.
Proof.
  split; [apply reachable_main|].
  apply (reachable_ids_decimal main_items reachable_main).
Defined.

Lemma other_ids_not_found_witness :
  reachable main_items ∧
  decimal_id (param (mkRequest ∅ updatedBody) "id") = false ∧
  getItem (mkRequest ∅ updatedBody) main_items
  = Some (respondWithError 404 "Item not found", main_items) ∧
  deleteItem (mkRequest ∅ updatedBody) main_items
  = Some (respondWithError 404 "Item not found", main_items) ∧
  ∀ patch, Decode (req_body (mkRequest ∅ updatedBody)) zeroItem = (patch, None) →
    updateItem (mkRequest ∅ updatedBody) main_items
    = Some (respondWithError 404 "Item not found", main_items).
Proof.
  assert (decimal_id (param (mkRequest ∅ updatedBody) "id") = false) as Hid
    by reflexivity.
  split; [apply reachable_main|]. split; [exact Hid|].
  apply (other_ids_not_found (mkRequest ∅ updatedBody) main_items
           reachable_main Hid).
Defined.

Lemma client_id_ignored_witness :
  Decode (req_body (request "1" newItemBody)) zeroItem
  = (mkItem "" "New Item" "A new test item", None) ∧
  Decode (req_body (request "1" newItemBodyWithId)) zeroItem
  = (mkItem "1" "New Item" "A new test item", None) ∧
  createItem 424242 (request "1" newItemBody) resetGlobalItems
  = createItem 424242 (request "1" newItemBodyWithId) resetGlobalItems ∧
  (param (request "1" newItemBody) "id" = param (request "1" newItemBodyWithId) "id" →
   updateItem (request "1" newItemBody) resetGlobalItems
   = updateItem (request "1" newItemBodyWithId) resetGlobalItems).
Proof.
  split; [reflexivity|]. split; [reflexivity|].
  apply (client_id_ignored 424242 (request "1" newItemBody)
           (request "1" newItemBodyWithId) resetGlobalItems
           (mkItem "" "New Item" "A new test item")
           (mkItem "1" "New Item" "A new test item")
           eq_refl eq_refl eq_refl eq_refl).
Defined.

Lemma every_id_can_be_drawn_again_witness :
  reachable main_items ∧
  mkItem "1" "Default Item 1" "This is the first item" ∈ main_items ∧
  Decode (req_body (mkRequest ∅ newItemBody)) zeroItem
  = (mkItem "" "New Item" "A new test item", None) ∧
  ∃ n, Intn_range n ∧
    createItem n (mkRequest ∅ newItemBody) main_items
    = Some (respondWithJSON 201
              (PItem (mkItem "1" "New Item" "A new test item")),
            (main_items ++ [mkItem "1" "New Item" "A new test item"])%list) ∧
    ¬ unique_ids (main_items ++ [mkItem "1" "New Item" "A new test item"])%list.
Proof.
  assert (mkItem "1" "Default Item 1" "This is the first item" ∈ main_items)
    as Hin by apply list_elem_of_here.
  split; [apply reachable_main|]. split; [exact Hin|]. split; [reflexivity|].
  apply (every_id_can_be_drawn_again main_items
           (mkItem "1" "Default Item 1" "This is the first item")
           (mkRequest ∅ newItemBody)
           (mkItem "" "New Item" "A new test item")
           reachable_main Hin eq_refl).
Defined.

Lemma calls_keep_other_ids_witness :
  handle (OpDelete (request "1" NoValue)) resetGlobalItems
  = Some (respondWithJSON 200
            (PMap {[ "result" := "success"; "id_deleted" := "1" ]}),
          [mkItem "2" "Mock Item 2" "Second mock item"]) ∧
  target (OpDelete (request "1" NoValue)) ≠ Some (param (request "2" NoValue) "id") ∧
  ∃ answer,
    getItem (request "2" NoValue) resetGlobalItems
    = Some (answer, resetGlobalItems) ∧
    getItem (request "2" NoValue) [mkItem "2" "Mock Item 2" "Second mock item"]
    = Some (answer, [mkItem "2" "Mock Item 2" "Second mock item"]).
Proof.
  assert (target (OpDelete (request "1" NoValue))
          ≠ Some (param (request "2" NoValue) "id")) as Hother by discriminate.
  split; [reflexivity|]. split; [exact Hother|].
  apply (calls_keep_other_ids (OpDelete (request "1" NoValue)) resetGlobalItems
           (respondWithJSON 200
              (PMap {[ "result" := "success"; "id_deleted" := "1" ]}))
           [mkItem "2" "Mock Item 2" "Second mock item"]
           (request "2" NoValue) eq_refl Hother).
Defined.
